(** * OPC-UA water station client: tag synchronisation and distribution core

    A shallow embedding of the TypeScript sources

      - [lib/tags]            the tag registry ([tags], [TagInfo]);
      - [lib/opcClient]       the class [OPCUAClientWrapper];
      - [app/api/socket]      the server-sent-events route ([GET]);
      - [app/page]            the reconnection logic ([connectEventSource]);

    followed by the properties of the specification that were checked
    against it.  JavaScript objects used as dictionaries are finite maps,
    exceptions are abrupt completions of a small state monad, and every
    call into node-opcua, the console or a timer is recorded in a trace.
    The answers of the outside world (does the transport connect, which
    status code does a write get, ...) are explicit arguments. *)

From Stdlib Require Import ZArith.
From stdpp Require Import gmap strings list pretty.

(* ===================================================================== *)
(** ** JavaScript values and completions *)
(* ===================================================================== *)

(** The values a tag can hold ([any] in the source): [null], [undefined],
    booleans, numbers (the integers are enough for the registry's types)
    and strings. *)
Inductive JsValue : Type :=
| JNull
| JUndefined
| JBool (b : bool)
| JNum (n : Z)
| JStr (s : string).

#[global] Instance JsValue_eq_dec : EqDecision JsValue.
Proof. solve_decision. Defined.

(** [!v] *)
Definition js_not (v : JsValue) : bool :=
  match v with
  | JNull | JUndefined => true
  | JBool b => negb b
  | JNum n => (n =? 0)%Z
  | JStr s => if decide (s = EmptyString) then true else false
  end.

Inductive JsError : Type :=
| TypeError
| Error (msg : string).

#[global] Instance JsError_eq_dec : EqDecision JsError.
Proof. solve_decision. Defined.

(** How a call ends: it returns or it throws. *)
Inductive Completion (A : Type) : Type :=
| Return (a : A)
| Throw (e : JsError).
Arguments Return {A} a.
Arguments Throw {A} e.

(* ===================================================================== *)
(** ** lib/tags: the registry *)
(* ===================================================================== *)

Inductive TagType : Type := TBoolean | TInt16 | TFloat | TString.
Inductive Access : Type := Read | Write.

#[global] Instance TagType_eq_dec : EqDecision TagType.
Proof. solve_decision. Defined.
#[global] Instance Access_eq_dec : EqDecision Access.
Proof. solve_decision. Defined.

Record TagInfo : Type := mkTag {
  nodeId : string;
  type : TagType;
  access : list Access;
  description : string
}.

(** [access.includes(a)] *)
Definition includes (l : list Access) (a : Access) : bool :=
  existsb (fun x => bool_decide (x = a)) l.

(** An object literal, in the order its keys are written. *)
Definition Registry : Type := list (string * TagInfo).

(** [tags[tagName]]; [None] is [undefined]. *)
Fixpoint lookup_tag (reg : Registry) (tagName : string) : option TagInfo :=
  match reg with
  | [] => None
  | (k, info) :: rest =>
      if String.eqb k tagName then Some info else lookup_tag rest tagName
  end.

(** [Object.keys(tags)] *)
Definition keys (reg : Registry) : list string := map fst reg.

Definition tags : Registry :=
  [ ("ARU",     mkTag "ns=4;s=ARU"     TBoolean [Read; Write] "Emergency stop button");
    ("AUT",     mkTag "ns=4;s=AUT"     TBoolean [Read; Write] "Automatic mode");
    ("BPpompe", mkTag "ns=4;s=BPpompe" TBoolean [Read]        "Pump button status");
    ("BPvanne", mkTag "ns=4;s=BPvanne" TBoolean [Read]        "Valve button status");
    ("REA",     mkTag "ns=4;s=REA"     TBoolean [Read; Write] "Reset button");
    ("arret",   mkTag "ns=4;s=arret"   TBoolean [Read; Write] "Stop button");
    ("marche",  mkTag "ns=4;s=marche"  TBoolean [Read; Write] "Start button");
    ("niveau",  mkTag "ns=4;s=niveau"  TInt16   [Read]        "Water level");
    ("pompe",   mkTag "ns=4;s=pompe"   TBoolean [Read; Write] "Pump control");
    ("vanne",   mkTag "ns=4;s=vanne"   TBoolean [Read; Write] "Valve control") ].

(* ===================================================================== *)
(** ** The outside world *)
(* ===================================================================== *)

(** The members of node-opcua's [DataType] enumeration that matter here. *)
Inductive DataType : Type :=
| DataType_Boolean
| DataType_Int16
| DataType_Float
| DataType_String
| DataType_Variant.

#[global] Instance DataType_eq_dec : EqDecision DataType.
Proof. solve_decision. Defined.

(** What [Promise.race([client.connect(url), timeout])] does. *)
Inductive TransportOutcome : Type :=
| Established
| Refused (e : JsError)
| TimedOut.

(** What [session.write(node)] does: a status code, or an exception. *)
Inductive WriteOutcome : Type :=
| StatusGood
| StatusBad
| WriteThrows (e : JsError).

(** What [session.read(node)] does: a data value whose status is good,
    one whose status is not, or an exception. *)
Inductive ReadOutcome : Type :=
| DataGood (v : JsValue)
| DataBad
| ReadThrows (e : JsError).

(** The two jobs [mockTagValues] hands to [setInterval]. *)
Inductive MockJob : Type := SimulateNiveau | SimulateToggle.

(** Calls that leave the module, in the order they are made. *)
Inductive Effect : Type :=
| console_error (msg : string)
| client_connect (url : string)
| client_createSession
| client_disconnect
| subscription_create
| subscription_terminate
| session_close
| monitoredItem_create (node : string)
| session_write (node : string) (dataType : DataType) (value : JsValue)
                (status : WriteOutcome)
| session_read (node : string) (result : ReadOutcome)
| item_changed (tagName : string) (value : JsValue)
| setInterval (job : MockJob) (ms : Z).

#[global] Instance WriteOutcome_eq_dec : EqDecision WriteOutcome.
Proof. solve_decision. Defined.
#[global] Instance ReadOutcome_eq_dec : EqDecision ReadOutcome.
Proof. solve_decision. Defined.
#[global] Instance MockJob_eq_dec : EqDecision MockJob.
Proof. solve_decision. Defined.
#[global] Instance Effect_eq_dec : EqDecision Effect.
Proof. solve_decision. Defined.

(* ===================================================================== *)
(** ** State *)
(* ===================================================================== *)

(** One chunk written to a server-sent-events stream. *)
Inductive Chunk : Type :=
| Ping                                           (* the keep-alive comment line *)
| InitialData (snapshot : gmap string JsValue)   (* data: { initial: snapshot } *)
| TagData (tagName : string) (value : JsValue).  (* data: { tag, value } *)

(** A [ReadableStreamDefaultController]: what was enqueued so far, oldest
    first, and whether the stream is still open.  [enqueue] on a stream
    that is not open throws. *)
Record Controller : Type := mkController {
  connectionId : string;
  queue : list Chunk;
  open : bool
}.

(** The fields of [OPCUAClientWrapper].  A callback registered with
    [onTagUpdate] is the closure made by one run of the route's [start]:
    the controller and the connection id that run captured. *)
Record OPCUAClientWrapper : Type := mkWrapper {
  session : option nat;
  subscription : option nat;
  monitoredItems : gset string;
  connected : bool;
  tagValues : gmap string JsValue;
  onUpdateCallbacks : list (nat * string);
  currentUrl : string
}.

(** The process: the singleton wrapper, the stream controllers allocated
    so far (position = identity), the route's [activeConnections] (pairs
    of controller and id), the running intervals and the trace. *)
Record World : Type := mkWorld {
  this : OPCUAClientWrapper;
  controllers : list Controller;
  activeConnections : list (nat * string);
  intervals : list MockJob;
  effects : list Effect
}.

Definition with_this (f : OPCUAClientWrapper -> OPCUAClientWrapper) (w : World) : World :=
  mkWorld (f (this w)) (controllers w) (activeConnections w) (intervals w) (effects w).

Definition set_session (s : option nat) (o : OPCUAClientWrapper) :=
  mkWrapper s (subscription o) (monitoredItems o) (connected o) (tagValues o)
            (onUpdateCallbacks o) (currentUrl o).
Definition set_subscription (s : option nat) (o : OPCUAClientWrapper) :=
  mkWrapper (session o) s (monitoredItems o) (connected o) (tagValues o)
            (onUpdateCallbacks o) (currentUrl o).
Definition set_monitoredItems (m : gset string) (o : OPCUAClientWrapper) :=
  mkWrapper (session o) (subscription o) m (connected o) (tagValues o)
            (onUpdateCallbacks o) (currentUrl o).
Definition set_connected (b : bool) (o : OPCUAClientWrapper) :=
  mkWrapper (session o) (subscription o) (monitoredItems o) b (tagValues o)
            (onUpdateCallbacks o) (currentUrl o).
Definition set_tagValues (v : gmap string JsValue) (o : OPCUAClientWrapper) :=
  mkWrapper (session o) (subscription o) (monitoredItems o) (connected o) v
            (onUpdateCallbacks o) (currentUrl o).
Definition set_onUpdateCallbacks (c : list (nat * string)) (o : OPCUAClientWrapper) :=
  mkWrapper (session o) (subscription o) (monitoredItems o) (connected o)
            (tagValues o) c (currentUrl o).
Definition set_currentUrl (u : string) (o : OPCUAClientWrapper) :=
  mkWrapper (session o) (subscription o) (monitoredItems o) (connected o)
            (tagValues o) (onUpdateCallbacks o) u.

Definition set_controllers (c : list Controller) (w : World) : World :=
  mkWorld (this w) c (activeConnections w) (intervals w) (effects w).
Definition set_activeConnections (a : list (nat * string)) (w : World) : World :=
  mkWorld (this w) (controllers w) a (intervals w) (effects w).
Definition add_interval (j : MockJob) (w : World) : World :=
  mkWorld (this w) (controllers w) (activeConnections w) (intervals w ++ [j]) (effects w).
Definition add_effect (e : Effect) (w : World) : World :=
  mkWorld (this w) (controllers w) (activeConnections w) (intervals w) (effects w ++ [e]).

(* ===================================================================== *)
(** ** The monad of the embedding: state and exceptions *)
(* ===================================================================== *)

Definition M (A : Type) : Type := World -> Completion A * World.

Definition ret {A} (a : A) : M A := fun w => (Return a, w).
Definition throw {A} (e : JsError) : M A := fun w => (Throw e, w).
Definition bind {A B} (m : M A) (k : A -> M B) : M B :=
  fun w => match m w with
           | (Return a, w') => k a w'
           | (Throw e, w') => (Throw e, w')
           end.
(** [try { m } catch (err) { h err }] *)
Definition try_catch {A} (m : M A) (h : JsError -> M A) : M A :=
  fun w => match m w with
           | (Return a, w') => (Return a, w')
           | (Throw e, w') => h e w'
           end.

Declare Scope js_scope.
Delimit Scope js_scope with js.
Notation "x ← y ; z" := (bind y (fun x => z))
  (at level 20, y at level 100, z at level 200, only parsing) : js_scope.
Notation "y ;; z" := (bind y (fun _ => z))
  (at level 100, z at level 200, only parsing, right associativity) : js_scope.
Open Scope js_scope.

Definition gets {A} (f : OPCUAClientWrapper -> A) : M A :=
  fun w => (Return (f (this w)), w).
Definition assign (f : OPCUAClientWrapper -> OPCUAClientWrapper) : M unit :=
  fun w => (Return tt, with_this f w).
Definition emit (e : Effect) : M unit :=
  fun w => (Return tt, add_effect e w).
(** A call whose answer the outside world decides. *)
Definition call {A} (e : Effect) (answer : Completion A) : M A :=
  fun w => (answer, add_effect e w).

(** [for (const x of l) { body x }] *)
Fixpoint for_each {A} (l : list A) (body : A -> M unit) : M unit :=
  match l with
  | [] => ret tt
  | x :: rest => body x ;; for_each rest body
  end.

(** Reading a property of [tags[tagName]]: a [TypeError] on [undefined].
    (A name that the object only inherits, such as [toString], yields a
    value without [access]; the test on it raises the same error.) *)
Definition deref (tag : option TagInfo) : M TagInfo :=
  match tag with
  | Some info => ret info
  | None => throw TypeError
  end.

(* ===================================================================== *)
(** ** app/api/socket: stream controllers and the update callback *)
(* ===================================================================== *)

(** [controller.enqueue(chunk)] on the controller at position [k]. *)
Definition enqueue (k : nat) (chunk : Chunk) : M unit :=
  fun w =>
    match controllers w !! k with
    | Some c =>
        if open c
        then (Return tt,
              set_controllers
                (<[k := mkController (connectionId c) (queue c ++ [chunk]) true]>
                   (controllers w)) w)
        else (Throw TypeError, w)
    | None => (Throw TypeError, w)
    end.

(** The closure the route passes to [onTagUpdate]; it captured the
    controller of its stream and the connection id. *)
Definition update_callback (cb : nat * string) (tagName : string) (value : JsValue)
  : M unit :=
  try_catch
    (enqueue (fst cb) (TagData tagName value))
    (fun err =>
       emit (console_error ("Error sending update to client " +:+ snd cb +:+ ":"))).

(* ===================================================================== *)
(** ** lib/opcClient: OPCUAClientWrapper *)
(* ===================================================================== *)

(** The outcome of each teardown call of [disconnect]. *)
Record TeardownEnv : Type := mkTeardown {
  terminate_result : Completion unit;   (* subscription.terminate() *)
  close_result : Completion unit;       (* session.close() *)
  disconnect_result : Completion unit   (* client.disconnect() *)
}.

(** What [connect] meets: the configuration and the outcome of each call. *)
Record ConnectEnv : Type := mkConnectEnv {
  NODE_ENV : string;                                (* process.env.NODE_ENV *)
  teardown : TeardownEnv;
  transport : TransportOutcome;
  createSession_result : Completion nat;            (* client.createSession() *)
  subscription_result : Completion nat;             (* ClientSubscription.create *)
  monitoredItem_result : string -> Completion unit  (* ClientMonitoredItem.create *)
}.

Definition is_some {A} (o : option A) : bool :=
  match o with Some _ => true | None => false end.

(** [this.tagValues[tagName] = value] *)
Definition store (tagName : string) (value : JsValue) : M unit :=
  assign (fun o => set_tagValues (<[tagName := value]> (tagValues o)) o).

(** [this.onUpdateCallbacks.forEach((callback) => callback(tagName, value))] *)
Definition notify (tagName : string) (value : JsValue) : M unit :=
  cbs ← gets onUpdateCallbacks;
  for_each cbs (fun callback => update_callback callback tagName value).

(** The object literal assigned by [mockTagValues]. *)
Definition mockInitial : gmap string JsValue :=
  list_to_map
    [ ("ARU", JBool false); ("AUT", JBool false); ("BPpompe", JBool true);
      ("BPvanne", JBool true); ("REA", JBool false); ("arret", JBool false);
      ("marche", JBool true); ("niveau", JNum 65); ("pompe", JBool true);
      ("vanne", JBool true) ].

(** [setInterval(job, ms)] *)
Definition set_interval (job : MockJob) (ms : Z) : M unit :=
  fun w => (Return tt, add_interval job (add_effect (setInterval job ms) w)).

Definition mockTagValues : M unit :=
  assign (set_tagValues mockInitial) ;;
  set_interval SimulateNiveau 5000 ;;
  set_interval SimulateToggle 15000.

(** The body of the first interval; [newNiveau] is
    [Math.floor(Math.random() * 100)]. *)
Definition simulate_niveau (newNiveau : Z) : M unit :=
  store "niveau" (JNum newNiveau) ;;
  notify "niveau" (JNum newNiveau).

Definition mockCandidates : list string := ["BPpompe"; "BPvanne"; "pompe"; "vanne"].

(** The body of the second interval; [pick] stands for
    [Math.floor(Math.random() * tags.length)], which lies below 4. *)
Definition simulate_toggle (pick : nat) : M unit :=
  let randomTag := nth (pick mod 4) mockCandidates "BPpompe" in
  old ← gets (fun o => tagValues o !! randomTag);
  let newValue := JBool (js_not (default JUndefined old)) in
  store randomTag newValue ;;
  notify randomTag newValue.

(** The handler of a monitored item's change event. *)
Definition on_changed (tagName : string) (value : JsValue) : M unit :=
  emit (item_changed tagName value) ;;
  store tagName value ;;
  notify tagName value.

(** [constructor()] applied to a registry: every key starts at [null]. *)
Definition constructor (registry : Registry) : OPCUAClientWrapper :=
  mkWrapper None None ∅ false
            (foldl (fun m tagName => <[tagName := JNull]> m) ∅ (keys registry))
            [] EmptyString.

Section Wrapper.

(** The registry the module imports; the shipped one is [tags]. *)
Variable registry : Registry.

Definition disconnect (env : TeardownEnv) : M unit :=
  c ← gets connected;
  if negb c then ret tt else
  try_catch
    (sub ← gets subscription;
     (if is_some sub
      then call subscription_terminate (terminate_result env) ;;
           assign (set_subscription None)
      else ret tt) ;;
     ses ← gets session;
     (if is_some ses
      then call session_close (close_result env) ;;
           assign (set_session None)
      else ret tt) ;;
     call client_disconnect (disconnect_result env) ;;
     assign (set_connected false))
    (fun err => emit (console_error "Error during disconnection:")).

Definition monitorTag (tagName : string) (env : ConnectEnv) : M unit :=
  sub ← gets subscription;
  ses ← gets session;
  if negb (is_some sub) || negb (is_some ses) then ret tt else
  let tag := lookup_tag registry tagName in
  try_catch
    (info ← deref tag;
     call (monitoredItem_create (nodeId info))
          (monitoredItem_result env (nodeId info)) ;;
     assign (fun o => set_monitoredItems ({[tagName]} ∪ monitoredItems o) o))
    (fun err => emit (console_error ("Error monitoring tag " +:+ tagName +:+ ":"))).

Definition createSubscription (env : ConnectEnv) : M unit :=
  ses ← gets session;
  c ← gets connected;
  if negb (is_some ses) || negb c then ret tt else
  try_catch
    (sub ← call subscription_create (subscription_result env);
     assign (set_subscription (Some sub)) ;;
     for_each registry
       (fun entry =>
          if includes (access (snd entry)) Read
          then monitorTag (fst entry) env
          else ret tt))
    (fun err => emit (console_error "Error creating subscription:")).

(** [await Promise.race([this.client.connect(url), timeoutPromise])] *)
Definition race_connect (endpointUrl : string) (t : TransportOutcome) : M unit :=
  call (client_connect endpointUrl)
       (match t with
        | Established => Return tt
        | Refused e => Throw e
        | TimedOut => Throw (Error "Connection timeout")
        end).

Definition connect (endpointUrl : string) (env : ConnectEnv) : M bool :=
  c ← gets connected;
  url ← gets currentUrl;
  if c && bool_decide (url = endpointUrl) then ret true else
  (if c && negb (bool_decide (url = endpointUrl))
   then disconnect (teardown env)
   else ret tt) ;;
  try_catch
    (race_connect endpointUrl (transport env) ;;
     ses ← call client_createSession (createSession_result env);
     assign (set_session (Some ses)) ;;
     assign (set_connected true) ;;
     assign (set_currentUrl endpointUrl) ;;
     createSubscription env ;;
     ret true)
    (fun err =>
       emit (console_error ("Failed to connect to OPC-UA server at " +:+ endpointUrl +:+ ":")) ;;
       if bool_decide (NODE_ENV env = "development")
       then assign (set_connected true) ;;
            assign (set_currentUrl endpointUrl) ;;
            mockTagValues ;;
            ret true
       else ret false).

(** The [switch (tag.type)] of [writeTag]. *)
Definition dataType_of (t : TagType) : DataType :=
  match t with
  | TBoolean => DataType_Boolean
  | TInt16 => DataType_Int16
  | _ => DataType_Variant
  end.

Definition writeTag (tagName : string) (value : JsValue) (wr : WriteOutcome) : M bool :=
  ses ← gets session;
  c ← gets connected;
  if negb (is_some ses) || negb c
  then emit (console_error "Not connected to OPC-UA server") ;; ret false
  else
  tag ← deref (lookup_tag registry tagName);
  if negb (includes (access tag) Write)
  then emit (console_error ("Tag " +:+ tagName +:+ " is not writable")) ;; ret false
  else
  try_catch
    (let dataType := dataType_of (type tag) in
     good ← call (session_write (nodeId tag) dataType value wr)
                 (match wr with
                  | StatusGood => Return true
                  | StatusBad => Return false
                  | WriteThrows e => Throw e
                  end);
     if good : bool
     then store tagName value ;; ret true
     else ret false)
    (fun err =>
       emit (console_error ("Error writing to tag " +:+ tagName +:+ ":")) ;;
       ret false).

Definition readTag (tagName : string) (rd : ReadOutcome) : M JsValue :=
  ses ← gets session;
  c ← gets connected;
  if negb (is_some ses) || negb c
  then emit (console_error "Not connected to OPC-UA server") ;; ret JNull
  else
  tag ← deref (lookup_tag registry tagName);
  if negb (includes (access tag) Read)
  then emit (console_error ("Tag " +:+ tagName +:+ " is not readable")) ;; ret JNull
  else
  try_catch
    (dataValue ← call (session_read (nodeId tag) rd)
                      (match rd with
                       | DataGood v => Return (Some v)
                       | DataBad => Return None
                       | ReadThrows e => Throw e
                       end);
     match dataValue with
     | Some v => store tagName v ;; ret v
     | None => ret JNull
     end)
    (fun err =>
       emit (console_error ("Error reading tag " +:+ tagName +:+ ":")) ;;
       ret JNull).

(** [tags[tagName].access.includes("Read")] on a key of the registry. *)
Definition readable (tagName : string) : bool :=
  match lookup_tag registry tagName with
  | Some info => includes (access info) Read
  | None => false
  end.

(** The readable keys, as [readAllTags] filters them. *)
Definition readable_keys : list string :=
  List.filter readable (keys registry).

(** The reads of [readAllTags], one per readable key, each storing into
    its own entry; every key read is registered, so no read raises. *)
Fixpoint read_each (names : list string) (reads : string -> ReadOutcome)
  : M (list (string * JsValue)) :=
  match names with
  | [] => ret []
  | tagName :: rest =>
      value ← readTag tagName (reads tagName);
      results ← read_each rest reads;
      ret ((tagName, value) :: results)
  end.

Definition readAllTags (reads : string -> ReadOutcome) : M (gmap string JsValue) :=
  ses ← gets session;
  c ← gets connected;
  if negb (is_some ses) || negb c
  then emit (console_error "Not connected to OPC-UA server") ;; gets tagValues
  else
  results ← read_each readable_keys reads;
  for_each results (fun r => store (fst r) (snd r)) ;;
  gets tagValues.

Definition getAllTagValues : M (gmap string JsValue) := gets tagValues.

(** [onTagUpdate(callback)]: the callback is pushed; the function it
    returns is [unsubscribe callback]. *)
Definition onTagUpdate (callback : nat * string) : M unit :=
  assign (fun o => set_onUpdateCallbacks (onUpdateCallbacks o ++ [callback]) o).

Definition unsubscribe (callback : nat * string) : M unit :=
  assign (fun o =>
    set_onUpdateCallbacks
      (filter (fun cb => cb <> callback) (onUpdateCallbacks o)) o).

Definition isConnected : M bool := gets connected.
Definition getConnectionUrl : M string := gets currentUrl.

End Wrapper.

(* ===================================================================== *)
(** ** app/api/socket: the route *)
(* ===================================================================== *)

Section Route.

Variable registry : Registry.

(** The stream constructor allocates a controller for [start]. *)
Definition new_controller (id : string) : M nat :=
  fun w => (Return (length (controllers w)),
            set_controllers (controllers w ++ [mkController id [] true]) w).

(** The runtime closes a stream whose consumer went away. *)
Definition close_controller (k : nat) : M unit :=
  fun w =>
    match controllers w !! k with
    | Some c => (Return tt,
                 set_controllers
                   (<[k := mkController (connectionId c) (queue c) false]>
                      (controllers w)) w)
    | None => (Return tt, w)
    end.

Definition add_connection (conn : nat * string) : M unit :=
  fun w => (Return tt, set_activeConnections (activeConnections w ++ [conn]) w).

Definition delete_connection (conn : nat * string) : M unit :=
  fun w => (Return tt,
            set_activeConnections
              (filter (fun c => c <> conn) (activeConnections w)) w).

Definition get_connections : M (list (nat * string)) :=
  fun w => (Return (activeConnections w), w).

(** [start(controller)] of the stream made for the request with id [id];
    the result is the controller it ran with. *)
Definition start (id : string) : M nat :=
  k ← new_controller id;
  enqueue k Ping ;;
  add_connection (k, id) ;;
  onTagUpdate (k, id) ;;
  initialData ← getAllTagValues;
  enqueue k (InitialData initialData) ;;
  ret k.

(** The listener [start] registers on [request.signal] for stream [k]. *)
Definition on_abort (k : nat) (id : string) : M unit :=
  conns ← get_connections;
  for_each conns
    (fun conn =>
       if bool_decide (snd conn = id)
       then delete_connection conn ;; unsubscribe (k, id)
       else ret tt).

(** [cancel()] of the stream with id [id]. *)
Definition on_cancel (id : string) : M unit :=
  conns ← get_connections;
  for_each conns
    (fun conn =>
       if bool_decide (snd conn = id)
       then delete_connection conn
       else ret tt).

Definition GET (url id : string) (env : ConnectEnv) (reads : string -> ReadOutcome)
  : M nat :=
  c ← isConnected;
  current ← getConnectionUrl;
  (if negb c || negb (bool_decide (current = url))
   then try_catch
          (ok ← connect registry url env;
           if ok : bool
           then readAllTags registry reads ;; ret tt
           else emit (console_error ("Failed to connect to OPC-UA server at " +:+ url)))
          (fun err =>
             emit (console_error ("Error connecting to OPC-UA server at " +:+ url +:+ ":")))
   else ret tt) ;;
  start id.

End Route.

(* ===================================================================== *)
(** ** Runs of the server *)
(* ===================================================================== *)

(** What can happen to the process: a call of a public method, a request
    to the route, or an event delivered by the runtime. *)
Inductive Op : Type :=
| OpConnect (url : string) (env : ConnectEnv)
| OpDisconnect (env : TeardownEnv)
| OpReadTag (tagName : string) (rd : ReadOutcome)
| OpReadAllTags (reads : string -> ReadOutcome)
| OpWriteTag (tagName : string) (value : JsValue) (wr : WriteOutcome)
| OpGET (url id : string) (env : ConnectEnv) (reads : string -> ReadOutcome)
| OpAttach (id : string)                       (* [start] alone *)
| OpAbort (k : nat)                            (* the request of stream k aborts *)
| OpCancel (k : nat)                           (* stream k is cancelled *)
| OpChanged (tagName : string) (value : JsValue) (* a monitored item changes *)
| OpInterval (i : nat) (random : nat).         (* the i-th interval elapses *)

Definition exec {A} (m : M A) (w : World) : World := snd (m w).
Definition result {A} (m : M A) (w : World) : Completion A := fst (m w).

Definition step (registry : Registry) (op : Op) (w : World) : World :=
  match op with
  | OpConnect url env => exec (connect registry url env) w
  | OpDisconnect env => exec (disconnect env) w
  | OpReadTag tagName rd => exec (readTag registry tagName rd) w
  | OpReadAllTags reads => exec (readAllTags registry reads) w
  | OpWriteTag tagName value wr => exec (writeTag registry tagName value wr) w
  | OpGET url id env reads => exec (GET registry url id env reads) w
  | OpAttach id => exec (start id) w
  | OpAbort k =>
      match controllers w !! k with
      | Some c => exec (on_abort k (connectionId c)) w
      | None => w
      end
  | OpCancel k =>
      match controllers w !! k with
      | Some c => exec (close_controller k ;; on_cancel (connectionId c)) w
      | None => w
      end
  | OpChanged tagName value =>
      if bool_decide (tagName ∈ monitoredItems (this w))
      then exec (on_changed tagName value) w
      else w
  | OpInterval i random =>
      match intervals w !! i with
      | Some SimulateNiveau => exec (simulate_niveau (Z.of_nat (random mod 100))) w
      | Some SimulateToggle => exec (simulate_toggle random) w
      | None => w
      end
  end.

Definition run (registry : Registry) (ops : list Op) (w : World) : World :=
  foldl (fun w op => step registry op w) w ops.

(** The process right after [getOPCClient()] made the singleton. *)
Definition boot (registry : Registry) : World :=
  mkWorld (constructor registry) [] [] [] [].

(* ===================================================================== *)
(** ** app/page: connectEventSource *)
(* ===================================================================== *)

Module Page.

(** The variables one run of [connectEventSource] declares and its
    handlers capture: [retryCount], and the [EventSource] it created,
    of which only whether it was closed matters. *)
Record Closure : Type := mkClosure {
  retryCount : nat;
  closed : bool
}.

(** The component: its React state, the store's connection flag, every
    closure made so far (oldest first) and the pending timeouts. *)
Record State : Type := mkState {
  isConnecting : bool;
  isConnected : bool;
  error : option string;
  store_connected : bool;
  closures : list Closure;
  timeouts : list Z
}.

Definition maxRetries : nat := 5.
Definition retryDelay : Z := 3000.

(** One run of [connectEventSource]: fresh variables, a fresh channel.
    (The close of an existing channel at its start never runs, the
    variable having just been set to null.) *)
Definition connectEventSource (s : State) : State :=
  mkState (isConnecting s) (isConnected s) (error s) (store_connected s)
          (closures s ++ [mkClosure 0 false]) (timeouts s).

Definition set_closure (i : nat) (c : Closure) (s : State) : State :=
  mkState (isConnecting s) (isConnected s) (error s) (store_connected s)
          (<[i := c]> (closures s)) (timeouts s).

(** [eventSource.onopen] of the i-th run. *)
Definition onopen (i : nat) (s : State) : State :=
  match closures s !! i with
  | Some c =>
      mkState false true None true
              (<[i := mkClosure 0 (closed c)]> (closures s)) (timeouts s)
  | None => s
  end.

(** [eventSource.onerror] of the i-th run. *)
Definition onerror (i : nat) (s : State) : State :=
  match closures s !! i with
  | Some c =>
      (* eventSource?.close() *)
      let s := set_closure i (mkClosure (retryCount c) true) s in
      if Nat.ltb (retryCount c) maxRetries
      then
        mkState (isConnecting s) (isConnected s)
                (Some ("Connection lost. Retrying (" +:+ pretty (retryCount c + 1)
                       +:+ "/" +:+ pretty maxRetries +:+ ")..."))
                (store_connected s)
                (<[i := mkClosure (retryCount c + 1) true]> (closures s))
                (timeouts s ++ [retryDelay])
      else
        mkState false false
                (Some "Failed to connect after multiple attempts. Please try again.")
                false (closures s) (timeouts s)
  | None => s
  end.

(** What the browser delivers.  A channel that was closed dispatches
    no further event; a timeout that elapses runs its function. *)
Inductive Event : Type :=
| Open (i : nat)
| Failure (i : nat)
| Elapse.

Definition dispatch (e : Event) (s : State) : State :=
  match e with
  | Open i =>
      match closures s !! i with
      | Some c => if closed c then s else onopen i s
      | None => s
      end
  | Failure i =>
      match closures s !! i with
      | Some c => if closed c then s else onerror i s
      | None => s
      end
  | Elapse =>
      match timeouts s with
      | _ :: rest =>
          connectEventSource
            (mkState (isConnecting s) (isConnected s) (error s)
                     (store_connected s) (closures s) rest)
      | [] => s
      end
  end.

(** The page after [handleConnect] saw the connection test succeed and
    called [connectEventSource]. *)
Definition connecting : State :=
  connectEventSource (mkState true false None false [] []).

(** The terminal branch of [onerror] has run. *)
Definition gave_up (s : State) : bool :=
  bool_decide (error s = Some "Failed to connect after multiple attempts. Please try again.").

(** The channel of the latest run fails, [n] times in a row, each retry
    being let to fire in between. *)
Fixpoint failures (n : nat) (s : State) : State :=
  match n with
  | O => s
  | S O => dispatch (Failure (length (closures s) - 1)) s
  | S m =>
      let s := failures m s in
      let s := dispatch Elapse s in
      dispatch (Failure (length (closures s) - 1)) s
  end.

End Page.

(* ===================================================================== *)
(** ** Vocabulary of the properties *)
(* ===================================================================== *)

(** A wrapper on which [writeTag] and [readTag] pass their first test. *)
Definition has_session (w : World) : bool :=
  is_some (session (this w)) && connected (this w).

(** [get(T)]: the entry of the snapshot ([None] for a key it lacks). *)
Definition get (w : World) (tagName : string) : option JsValue :=
  tagValues (this w) !! tagName.



(** Evidence in a trace for the value of a tag: a read of its node that
    came back good, or a change notification for it. *)
Definition read_or_notified (tagName node : string) (e : Effect) : bool :=
  match e with
  | session_read n (DataGood _) => bool_decide (n = node)
  | item_changed t _ => bool_decide (t = tagName)
  | _ => false
  end.

(** Further evidence the code accepts: a write of the node acknowledged
    good, or the simulator having been started. *)
Definition written_good (node : string) (e : Effect) : bool :=
  match e with
  | session_write n _ _ StatusGood => bool_decide (n = node)
  | _ => false
  end.

Definition simulator_started (e : Effect) : bool :=
  match e with
  | setInterval _ _ => true
  | _ => false
  end.

(** The invariant of the snapshot as the specification words it. *)
Definition snapshot_invariant_spec (registry : Registry) (w : World) : Prop :=
  forall tagName v,
    get w tagName = Some v -> v <> JNull ->
    exists info,
      lookup_tag registry tagName = Some info /\
      includes (access info) Read = true /\
      existsb (read_or_notified tagName (nodeId info)) (effects w) = true.

(** The invariant the code keeps. *)
Definition snapshot_invariant (registry : Registry) (w : World) : Prop :=
  forall tagName v,
    get w tagName = Some v -> v <> JNull ->
    exists info,
      lookup_tag registry tagName = Some info /\
      includes (access info) Read = true /\
      existsb (fun e => read_or_notified tagName (nodeId info) e
                        || written_good (nodeId info) e
                        || simulator_started e) (effects w) = true.

(** The data events of a stream. *)
Definition is_initial (c : Chunk) : bool :=
  match c with InitialData _ => true | _ => false end.
Definition is_tag (c : Chunk) : bool :=
  match c with TagData _ _ => true | _ => false end.

(** The queue of the controller at position [k]. *)
Definition stream (w : World) (k : nat) : list Chunk :=
  match controllers w !! k with
  | Some c => queue c
  | None => []
  end.

(** A connection attempt of [connect] that fails: the transport does not
    come up in time, or no session can be created on it. *)
Definition attempt_fails (env : ConnectEnv) : bool :=
  match transport env, createSession_result env with
  | Established, Return _ => false
  | _, _ => true
  end.

(** Some sample environments. *)
Definition teardown_ok : TeardownEnv :=
  mkTeardown (Return tt) (Return tt) (Return tt).

Definition server_up (mode : string) : ConnectEnv :=
  mkConnectEnv mode teardown_ok Established (Return 1%nat) (Return 1%nat)
               (fun _ => Return tt).

Definition server_down (mode : string) : ConnectEnv :=
  mkConnectEnv mode teardown_ok (Refused (Error "ECONNREFUSED"))
               (Return 1%nat) (Return 1%nat) (fun _ => Return tt).

Definition endpoint : string := "opc.tcp://localhost:4334".

(** The shipped process once connected to a live server. *)
Definition online : World :=
  exec (connect tags endpoint (server_up "production")) (boot tags).

(** ** Tactics for running the embedding *)

Ltac unfold_js :=
  unfold exec, result, has_session, get,
         bind, try_catch, ret, throw, gets, assign, emit, call, deref, store,
         with_this, add_effect in *.

Ltac js := unfold_js; cbn [fst snd this effects controllers activeConnections
                           intervals session subscription monitoredItems
                           connected tagValues onUpdateCallbacks currentUrl
                           set_session set_subscription set_monitoredItems
                           set_connected set_tagValues set_onUpdateCallbacks
                           set_currentUrl is_some negb orb andb] in *.

(** The calls [disconnect] makes when no step fails, for a wrapper that
    holds the given subscription and session. *)
Definition teardown_calls (sub ses : option nat) : list Effect :=
  (if is_some sub then [subscription_terminate] else []) ++
  (if is_some ses then [session_close] else []) ++
  [client_disconnect].

Definition online_with (registry : Registry) : World :=
  exec (connect registry endpoint (server_up "production")) (boot registry).

(** ** Frames *)

(** [m] relates every world to the world it leaves behind. *)
Definition keeps {A} (R : World -> World -> Prop) (m : M A) : Prop :=
  forall w, R w (snd (m w)).

(** [m] returns: it never ends in an exception. *)
Definition returns {A} (m : M A) : Prop :=
  forall w, exists a, fst (m w) = Return a.

(** The snapshot and the simulator are as they were. *)
Definition same_snapshot (w w' : World) : Prop :=
  tagValues (this w') = tagValues (this w) /\
  intervals w' = intervals w.

(** Nothing but the subscription, its items and the trace has changed. *)
Definition only_subscription (w w' : World) : Prop :=
  same_snapshot w w' /\
  connected (this w') = connected (this w) /\
  session (this w') = session (this w) /\
  currentUrl (this w') = currentUrl (this w).

(** [connect] goes past its first test and tries the transport. *)
Definition attempts (w : World) (endpointUrl : string) : bool :=
  negb (connected (this w) && bool_decide (currentUrl (this w) = endpointUrl)).

(** Every stream that exists still exists, and has grown by per-tag
    events only. *)
Definition streams_grow_by_tags (w w' : World) : Prop :=
  forall k c,
    controllers w !! k = Some c ->
    exists c' tl,
      controllers w' !! k = Some c' /\
      queue c' = queue c ++ tl /\
      Forall (fun x => is_tag x = true) tl.


(** ** The invariant of the snapshot, with what it leans on *)

(** The evidence the code accepts for a non-null value of a tag. *)
Definition evidence (tagName node : string) (e : Effect) : bool :=
  read_or_notified tagName node e || written_good node e || simulator_started e.

(** The tag is registered and readable, and the trace holds evidence for
    a value of it. *)
Definition evidenced (registry : Registry) (tagName : string) (tr : list Effect) : Prop :=
  exists info,
    lookup_tag registry tagName = Some info /\
    includes (access info) Read = true /\
    existsb (evidence tagName (nodeId info)) tr = true.

(** The invariant of the snapshot together with the two facts that make
    it inductive: only readable tags are monitored, and intervals run
    only once the simulator was started. *)
Definition store_consistent (registry : Registry) (w : World) : Prop :=
  snapshot_invariant registry w /\
  (forall tagName, tagName ∈ monitoredItems (this w) -> readable registry tagName = true) /\
  (intervals w <> [] -> existsb simulator_started (effects w) = true).

(** Nothing the invariant looks at has changed, but for a longer trace. *)
Definition quiet (w w' : World) : Prop :=
  tagValues (this w') = tagValues (this w) /\
  monitoredItems (this w') = monitoredItems (this w) /\
  intervals w' = intervals w /\
  exists more, effects w' = effects w ++ more.

(** [P] survives from one world to the other. *)
Definition preserved (P : World -> Prop) (w w' : World) : Prop := P w -> P w'.

(** A value handed back by [readTag]: null, or backed by evidence. *)
Definition backed (registry : Registry) (tr : list Effect) (r : string * JsValue) : Prop :=
  snd r = JNull \/ evidenced registry (fst r) tr.

(* ===================================================================== *)
(** ** store/useWaterStore: the client-side store *)
(* ===================================================================== *)

Module WaterStore.

(** The state object of the store: the connection flag under the key
    [connected] and one key per tag.  (The action functions the object
    also carries are left out.) *)
Definition initialState : gmap string JsValue :=
  list_to_map
    [ ("connected", JBool false); ("ARU", JNull); ("AUT", JNull);
      ("BPpompe", JNull); ("BPvanne", JNull); ("REA", JNull);
      ("arret", JNull); ("marche", JNull); ("niveau", JNull);
      ("pompe", JNull); ("vanne", JNull) ].

(** [set(partial)]: the keys of [partial] replace those of the state. *)
Definition set (partial state : gmap string JsValue) : gmap string JsValue :=
  partial ∪ state.

Definition setTagValue (tag : string) (value : JsValue)
  : gmap string JsValue -> gmap string JsValue :=
  set {[ tag := value ]}.

Definition updateAllTags (values : gmap string JsValue)
  : gmap string JsValue -> gmap string JsValue :=
  set values.

End WaterStore.

(* ===================================================================== *)
(** ** app/page: the message handler and runs of the page *)
(* ===================================================================== *)

(** What [JSON.parse(JSON.stringify(snapshot))] gives back: the entries
    that hold [undefined] are dropped by [JSON.stringify]. *)
Definition wire (snapshot : gmap string JsValue) : gmap string JsValue :=
  filter (fun kv => snd kv <> JUndefined) snapshot.

(** [eventSource.onmessage] on the message made from one chunk; the
    keep-alive line is a comment and raises no message. *)
Definition onmessage (c : Chunk) (store : gmap string JsValue) : gmap string JsValue :=
  match c with
  | Ping => store
  | InitialData snapshot => WaterStore.updateAllTags (wire snapshot) store
  | TagData tag value =>
      (* else if (data.tag): the empty string is falsy *)
      if decide (tag = EmptyString) then store
      else WaterStore.setTagValue tag value store
  end.

(** The store after the page has handled a stream, oldest chunk first. *)
Definition replay (chunks : list Chunk) (store : gmap string JsValue)
  : gmap string JsValue :=
  foldl (fun s c => onmessage c s) store chunks.

(** The page after the browser delivered a sequence of events. *)
Definition deliver (events : list Page.Event) (s : Page.State) : Page.State :=
  foldl (fun s e => Page.dispatch e s) s events.

(* ===================================================================== *)
(** ** app/api/control: the write route *)
(* ===================================================================== *)

Module Control.

(** The request body after [request.json()]: [tag] and [value] are JSON
    scalars or absent ([JUndefined]); [url] is a string or absent. *)
Record Body : Type := mkBody {
  tag : JsValue;
  value : JsValue;
  url : option string
}.

Inductive Payload : Type :=
| ErrorPayload (error : string)
| SuccessPayload (tag value : JsValue) (mock : bool).

(** [NextResponse.json(payload, { status })]; the status defaults to 200. *)
Record Response : Type := mkResponse {
  payload : Payload;
  status : nat
}.

(** The string a value becomes as a property key or in a template. *)
Definition to_key (v : JsValue) : string :=
  match v with
  | JStr s => s
  | JNum n => pretty n
  | JBool true => "true"
  | JBool false => "false"
  | JNull => "null"
  | JUndefined => "undefined"
  end.

(** [url && ...]: a string is truthy unless empty. *)
Definition truthy_url (u : option string) : option string :=
  match u with
  | Some s => if decide (s = EmptyString) then None else Some s
  | None => None
  end.

Section Route.

Variable registry : Registry.

(** From the test on [isConnected()] to the end of the [try] block. *)
Definition write_and_answer (body : Body) (wr : WriteOutcome) : M Response :=
  c ← isConnected;
  if negb c
  then ret (mkResponse (ErrorPayload "Not connected to OPC-UA server") 500)
  else
  success ← writeTag registry (to_key (tag body)) (value body) wr;
  if success : bool
  then ret (mkResponse (SuccessPayload (tag body) (value body) false) 200)
  else ret (mkResponse
              (ErrorPayload ("Failed to write value to tag " +:+ to_key (tag body))) 500).

(** [POST(request)].  [json] is what the first [request.json()] does and
    [rejson] what the second one, in the development branch of the
    handler, does. *)
Definition POST (json rejson : Completion Body) (env : ConnectEnv) (wr : WriteOutcome)
  : M Response :=
  try_catch
    (body ← (fun w => (json, w));
     if js_not (tag body) || bool_decide (value body = JUndefined)
     then ret (mkResponse (ErrorPayload "Missing tag or value in request") 400)
     else
     c ← isConnected;
     current ← getConnectionUrl;
     match truthy_url (url body) with
     | Some u =>
         if negb c || negb (bool_decide (current = u))
         then
           ok ← connect registry u env;
           if negb ok
           then ret (mkResponse
                       (ErrorPayload ("Failed to connect to OPC-UA server at " +:+ u)) 500)
           else write_and_answer body wr
         else write_and_answer body wr
     | None => write_and_answer body wr
     end)
    (fun error =>
       emit (console_error "Error in control API:") ;;
       if bool_decide (NODE_ENV env = "development")
       then
         again ← (fun w => (rejson, w));
         ret (mkResponse (SuccessPayload (tag again) (value again) true) 200)
       else ret (mkResponse (ErrorPayload "Internal server error") 500)).

End Route.

End Control.

(* ===================================================================== *)
(** ** components/IndustrialControlPanel and the page's control handler *)
(* ===================================================================== *)

(** The controls of the panel that call [onControlChange]. *)
Inductive PanelControl : Type :=
| StartButton
| StopButton
| AutoSwitch (checked : bool)
| EmergencyButton
| PumpButton
| ValveButton.

(** The tag and value a control passes to [onControlChange]. *)
Definition panel_command (tagValues : gmap string JsValue) (c : PanelControl)
  : string * bool :=
  match c with
  | StartButton => ("marche", true)
  | StopButton => ("arret", true)
  | AutoSwitch checked => ("AUT", checked)
  | EmergencyButton => ("ARU", true)
  | PumpButton => ("pompe", js_not (default JUndefined (tagValues !! "pompe")))
  | ValveButton => ("vanne", js_not (default JUndefined (tagValues !! "vanne")))
  end.

(** [handleControlChange(tag, value)] of the page, against the route:
    true when the response is ok, and otherwise false together with the
    message handed to [setError].  A handler that rejects is answered by
    the framework with status 500. *)
Definition handleControlChange (registry : Registry) (opcUrl : string)
    (cmd : string * bool) (rejson : Completion Control.Body)
    (env : ConnectEnv) (wr : WriteOutcome) (w : World)
  : bool * option string * World :=
  let body := Control.mkBody (JStr (fst cmd)) (JBool (snd cmd)) (Some opcUrl) in
  let failed := Some ("Failed to update " +:+ fst cmd +:+ ". Please try again.") in
  match Control.POST registry (Return body) rejson env wr w with
  | (Return response, w') =>
      if (200 <=? Control.status response) && (Control.status response <? 300)
      then (true, None, w')
      else (false, failed, w')
  | (Throw _, w') => (false, failed, w')
  end.

(* ===================================================================== *)
(** ** Further vocabulary *)
(* ===================================================================== *)

(** How many registered callbacks feed the controller at position [k]. *)
Definition deliveries (k : nat) (cbs : list (nat * string)) : nat :=
  length (List.filter (fun cb => Nat.eqb (fst cb) k) cbs).

(** Whether the controller at position [k] exists and is open. *)
Definition is_open (w : World) (k : nat) : bool :=
  match controllers w !! k with
  | Some c => open c
  | None => false
  end.

(** What the callback [cb] logs when its delivery fails. *)
Definition delivery_error (cb : nat * string) : Effect :=
  console_error ("Error sending update to client " +:+ snd cb +:+ ":").



(** Operations of the wrapper that are not notifications. *)
Definition silent (op : Op) : bool :=
  match op with
  | OpConnect _ _ | OpDisconnect _ | OpReadTag _ _ | OpReadAllTags _
  | OpWriteTag _ _ _ => true
  | _ => false
  end.

(** The value [readAllTags] leaves in the entry of a tag it has read. *)
Definition value_read (rd : ReadOutcome) : JsValue :=
  match rd with
  | DataGood v => v
  | _ => JNull
  end.

(** What monitoring one entry of the registry adds to the trace. *)
Definition monitor_trace (env : ConnectEnv) (entry : string * TagInfo) : list Effect :=
  if includes (access (snd entry)) Read
  then monitoredItem_create (nodeId (snd entry))
       :: match monitoredItem_result env (nodeId (snd entry)) with
          | Return _ => []
          | Throw _ => [console_error ("Error monitoring tag " +:+ fst entry +:+ ":")]
          end
  else [].

(** The entry is readable and its monitored item can be created. *)
Definition monitorable (env : ConnectEnv) (entry : string * TagInfo) : bool :=
  includes (access (snd entry)) Read &&
  match monitoredItem_result env (nodeId (snd entry)) with
  | Return _ => true
  | Throw _ => false
  end.

(** Nothing that runs or is monitored is ever dropped: the intervals
    only grow at the end, the monitored items only grow. *)
Definition never_forgets (w w' : World) : Prop :=
  (exists more, intervals w' = intervals w ++ more) /\
  monitoredItems (this w) ⊆ monitoredItems (this w').

(** No stream and no registration of a callback has changed. *)
Definition no_delivery (w w' : World) : Prop :=
  controllers w' = controllers w /\
  onUpdateCallbacks (this w') = onUpdateCallbacks (this w).

(** The stream [k] exists, holds [q], and no registered callback feeds it. *)
Definition detached (k : nat) (q : list Chunk) (w : World) : Prop :=
  k < length (controllers w) /\
  deliveries k (onUpdateCallbacks (this w)) = 0 /\
  stream w k = q.


(** Every channel of the page that is still open has counted no retry,
    the store's connection flag is the page's, and the page shows no
    message or the first retry message. *)
Definition steady (s : Page.State) : Prop :=
  Forall (fun c => Page.closed c = false -> Page.retryCount c = 0) (Page.closures s) /\
  Page.store_connected s = Page.isConnected s /\
  (Page.error s = None \/ Page.error s = Some "Connection lost. Retrying (1/5)...").

(* ===================================================================== *)
(** * Properties *)
(* ===================================================================== *)

(** ** Client reconnection controller *)

Example failures_1 :
  Page.error (Page.failures 1 Page.connecting)
  = Some "Connection lost. Retrying (1/5)...".
Proof. vm_compute. reflexivity. Qed.

Example failures_6_closures :
  Page.closures (Page.failures 6 Page.connecting)
  = replicate 6 (Page.mkClosure 1 true).
Proof. vm_compute. reflexivity. Qed.

(** A timeout that elapses runs [connectEventSource] afresh. *)
Lemma elapse_opens a b e sc cs d ds :
  Page.dispatch Page.Elapse (Page.mkState a b e sc cs (d :: ds))
  = Page.mkState a b e sc (cs ++ [Page.mkClosure 0 false]) ds.
Proof. reflexivity. Qed.

(** An error on the channel of a fresh run: closed, counted, retried. *)
Lemma failure_of_fresh a b e sc cs ts :
  Page.dispatch (Page.Failure (length cs))
                (Page.mkState a b e sc (cs ++ [Page.mkClosure 0 false]) ts)
  = Page.mkState a b (Some "Connection lost. Retrying (1/5)...") sc
                 (cs ++ [Page.mkClosure 1 true]) (ts ++ [Page.retryDelay]).
Proof.
  assert (Hl : (cs ++ [Page.mkClosure 0 false]) !! length cs
               = Some (Page.mkClosure 0 false)).
  { rewrite lookup_app_r by lia. by rewrite Nat.sub_diag. }
  unfold Page.dispatch, Page.onerror. cbn [Page.closures].
  rewrite Hl. cbn [Page.closed Page.retryCount].
  change (Nat.ltb 0 Page.maxRetries) with true. cbv iota.
  cbn [Page.set_closure Page.closures Page.isConnecting Page.isConnected
       Page.error Page.store_connected Page.timeouts].
  rewrite !insert_app_r_alt by lia. rewrite Nat.sub_diag.
  reflexivity.
Qed.

Lemma failures_next (n : nat) (s : Page.State) :
  Page.failures (S (S n)) s
  = let s1 := Page.dispatch Page.Elapse (Page.failures (S n) s) in
    Page.dispatch (Page.Failure (length (Page.closures s1) - 1)) s1.
Proof. reflexivity. Qed.

(** The state after any positive number of consecutive failures: every
    run of [connectEventSource] counted one retry in its own variable,
    and one more retry is pending. *)
Lemma failures_shape (n : nat) :
  Page.failures (S n) Page.connecting
  = Page.mkState true false (Some "Connection lost. Retrying (1/5)...") false
                 (replicate (S n) (Page.mkClosure 1 true)) [Page.retryDelay].
Proof.
  induction n as [|n IH].
  - vm_compute. reflexivity.
  - rewrite failures_next, IH. cbv zeta.
    rewrite elapse_opens. cbn [Page.closures].
    rewrite length_app. cbn [length].
    replace (length (replicate (S n) (Page.mkClosure 1 true)) + 1 - 1)
      with (length (replicate (S n) (Page.mkClosure 1 true))) by lia.
    rewrite failure_of_fresh.
    rewrite (replicate_S_end (S n)). reflexivity.
Qed.

(** However many times in a row the channel fails, the terminal branch
    is never taken. *)
Lemma failures_never_give_up (n : nat) :
  Page.gave_up (Page.failures n Page.connecting) = false.
Proof.
  destruct n as [|n].
  - reflexivity.
  - rewrite failures_shape. vm_compute. reflexivity.
Qed.

(** C1.  Six transport errors in a row, each on the channel opened by the
    retry before it: the specification has the controller give up after
    five retries, so that no sixth retry fires.  In the code every run of
    [connectEventSource] starts its own [retryCount] at zero, so the sixth
    error again reports attempt 1 of 5, schedules a retry after 3000 ms,
    and that retry fires and opens a seventh channel. *)
Theorem connectEventSource_sixth_retry_fires :
  let s := Page.failures 6 Page.connecting in
  Page.gave_up s = false /\
  Page.error s = Some "Connection lost. Retrying (1/5)..." /\
  Page.timeouts s = [Page.retryDelay] /\
  Forall (fun c => Page.retryCount c = 1 /\ Page.closed c = true) (Page.closures s) /\
  Page.closures (Page.dispatch Page.Elapse s)
  = Page.closures s ++ [Page.mkClosure 0 false].
Proof.
  cbv zeta. rewrite failures_shape.
  repeat split.
  - repeat constructor.
Qed.

(** ** Session manager: disconnect *)

Example disconnect_online :
  let w := exec (disconnect teardown_ok) online in
  connected (this w) = false /\ session (this w) = None /\
  subscription (this w) = None /\
  drop (length (effects online)) (effects w)
  = [subscription_terminate; session_close; client_disconnect].
Proof. vm_compute. repeat split. Qed.

(** C3, as stated, fails: when terminating the subscription throws, the
    session is not closed and the transport is not disconnected; the
    wrapper stays connected. *)
Lemma disconnect_skips_steps_after_failure :
  let env := mkTeardown (Throw (Error "BadSubscriptionIdInvalid")) (Return tt) (Return tt) in
  let w := exec (disconnect env) online in
  drop (length (effects online)) (effects w)
  = [subscription_terminate; console_error "Error during disconnection:"] /\
  is_some (session (this w)) = true /\
  connected (this w) = true.
Proof. vm_compute. repeat split. Qed.

(** C3, amended.  [disconnect] never raises.  On a wrapper that is not
    connected it changes nothing.  On a connected one it terminates the
    subscription, closes the session and disconnects the transport, in
    that order; when every step succeeds the wrapper ends disconnected
    with subscription and session cleared; when a step throws, the error
    is logged once, no later step is attempted and the wrapper stays
    connected. *)
Theorem disconnect_one_guarded_block (env : TeardownEnv) (w : World) :
  let w' := exec (disconnect env) w in
  result (disconnect env) w = Return tt /\
  (connected (this w) = false -> w' = w) /\
  (connected (this w) = true ->
   terminate_result env = Return tt ->
   close_result env = Return tt ->
   disconnect_result env = Return tt ->
   connected (this w') = false /\
   subscription (this w') = None /\
   session (this w') = None /\
   effects w' = effects w ++ teardown_calls (subscription (this w)) (session (this w))) /\
  (connected (this w) = true ->
   forall e sub,
     subscription (this w) = Some sub ->
     terminate_result env = Throw e ->
     this w' = this w /\
     effects w' = effects w ++ [subscription_terminate;
                                console_error "Error during disconnection:"]) /\
  (connected (this w) = true ->
   forall e ses,
     (subscription (this w) = None \/ terminate_result env = Return tt) ->
     session (this w) = Some ses ->
     close_result env = Throw e ->
     connected (this w') = true /\
     session (this w') = Some ses /\
     effects w' = effects w
                  ++ (if is_some (subscription (this w)) then [subscription_terminate] else [])
                  ++ [session_close; console_error "Error during disconnection:"]) /\
  (connected (this w) = true ->
   forall e,
     (subscription (this w) = None \/ terminate_result env = Return tt) ->
     (session (this w) = None \/ close_result env = Return tt) ->
     disconnect_result env = Throw e ->
     connected (this w') = true /\
     effects w' = effects w
                  ++ teardown_calls (subscription (this w)) (session (this w))
                  ++ [console_error "Error during disconnection:"]).
Proof.
  destruct w as [[ses sub items c vals cbs url] ctrls conns ivs tr].
  destruct env as [rt rc rd].
  cbv zeta. unfold disconnect, teardown_calls. js.
  destruct c; cbn.
  2: { repeat split; intros; try discriminate; reflexivity. }
  destruct rt as [[]|et], rc as [[]|ec], rd as [[]|ed], sub as [sub|], ses as [ses|];
    cbn; repeat split; intros;
    repeat match goal with
           | H : _ \/ _ |- _ => destruct H
           | H : Some _ = Some _ |- _ => injection H as H
           end;
    try discriminate; subst; cbn;
    rewrite <- ?app_assoc; try reflexivity.
Qed.

Lemma disconnect_one_guarded_block_witness :
  (connected (this (exec (disconnect teardown_ok) online)) = false /\
   subscription (this (exec (disconnect teardown_ok) online)) = None /\
   session (this (exec (disconnect teardown_ok) online)) = None /\
   effects (exec (disconnect teardown_ok) online)
   = effects online ++ teardown_calls (subscription (this online)) (session (this online))) /\
  exec (disconnect teardown_ok) (boot tags) = boot tags /\
  (let env := mkTeardown (Throw TypeError) (Return tt) (Return tt) in
   this (exec (disconnect env) online) = this online /\
   effects (exec (disconnect env) online)
   = effects online ++ [subscription_terminate;
                        console_error "Error during disconnection:"]) /\
  (let env := mkTeardown (Return tt) (Throw TypeError) (Return tt) in
   connected (this (exec (disconnect env) online)) = true) /\
  (let env := mkTeardown (Return tt) (Return tt) (Throw TypeError) in
   connected (this (exec (disconnect env) online)) = true).
Proof.
  split; [|split; [|split; [|split]]].
  - destruct (disconnect_one_guarded_block teardown_ok online) as (_ & _ & H & _).
    apply H; vm_compute; reflexivity.
  - destruct (disconnect_one_guarded_block teardown_ok (boot tags)) as (_ & H & _).
    apply H. vm_compute. reflexivity.
  - intros env.
    destruct (disconnect_one_guarded_block env online) as (_ & _ & _ & H & _).
    apply (H ltac:(vm_compute; reflexivity) TypeError 1); vm_compute; reflexivity.
  - intros env.
    destruct (disconnect_one_guarded_block env online) as (_ & _ & _ & _ & H & _).
    apply (H ltac:(vm_compute; reflexivity) TypeError 1);
      [right|..]; vm_compute; reflexivity.
  - intros env.
    destruct (disconnect_one_guarded_block env online) as (_ & _ & _ & _ & _ & H).
    apply (H ltac:(vm_compute; reflexivity) TypeError);
      [right|right|]; vm_compute; reflexivity.
Defined.

(** ** Write gateway *)

Example write_niveau_unwritable :
  result (writeTag tags "niveau" (JNum 10) StatusGood) online = Return false /\
  get (exec (writeTag tags "niveau" (JNum 10) StatusGood) online) "niveau" = Some JNull.
Proof. vm_compute. split; reflexivity. Qed.

Example write_ARU_commits :
  result (writeTag tags "ARU" (JBool true) StatusGood) online = Return true /\
  get (exec (writeTag tags "ARU" (JBool true) StatusGood) online) "ARU" = Some (JBool true).
Proof. vm_compute. split; reflexivity. Qed.

(** C4.  For a registered tag, [writeTag] returns true only if the tag's
    access includes Write.  Without a connected session it fails as not
    connected, whatever the tag's access (this test comes first); with
    one and without Write access it fails as not writable.  Either
    failure returns false, logs its own diagnostic, makes no call to the
    session and leaves the wrapper, hence the stored value, as it was. *)
Theorem writeTag_preconditions
    (registry : Registry) (tagName : string) (info : TagInfo)
    (value : JsValue) (wr : WriteOutcome) (w : World) :
  lookup_tag registry tagName = Some info ->
  let w' := exec (writeTag registry tagName value wr) w in
  let r := result (writeTag registry tagName value wr) w in
  (r = Return true -> includes (access info) Write = true) /\
  (has_session w = false ->
   r = Return false /\
   effects w' = effects w ++ [console_error "Not connected to OPC-UA server"] /\
   this w' = this w /\ get w' tagName = get w tagName) /\
  (has_session w = true -> includes (access info) Write = false ->
   r = Return false /\
   effects w' = effects w ++ [console_error ("Tag " +:+ tagName +:+ " is not writable")] /\
   this w' = this w /\ get w' tagName = get w tagName).
Proof.
  intros Hreg.
  destruct w as [[ses sub items c vals cbs url] ctrls conns ivs tr].
  cbv zeta. unfold writeTag. js. rewrite Hreg.
  destruct ses as [ses|], c; cbn;
    destruct (includes (access info) Write) eqn:Hacc; cbn;
    repeat split; intros; try discriminate; try reflexivity.
Qed.

Lemma writeTag_preconditions_witness :
  (result (writeTag tags "niveau" (JNum 10) StatusGood) (boot tags) = Return false /\
   effects (exec (writeTag tags "niveau" (JNum 10) StatusGood) (boot tags))
   = effects (boot tags) ++ [console_error "Not connected to OPC-UA server"] /\
   this (exec (writeTag tags "niveau" (JNum 10) StatusGood) (boot tags)) = this (boot tags) /\
   get (exec (writeTag tags "niveau" (JNum 10) StatusGood) (boot tags)) "niveau"
   = get (boot tags) "niveau") /\
  (result (writeTag tags "niveau" (JNum 10) StatusGood) online = Return false /\
   effects (exec (writeTag tags "niveau" (JNum 10) StatusGood) online)
   = effects online ++ [console_error ("Tag " +:+ "niveau" +:+ " is not writable")] /\
   this (exec (writeTag tags "niveau" (JNum 10) StatusGood) online) = this online /\
   get (exec (writeTag tags "niveau" (JNum 10) StatusGood) online) "niveau"
   = get online "niveau") /\
  includes [Read; Write] Write = true.
Proof.
  split; [|split].
  - destruct (writeTag_preconditions tags "niveau"
                (mkTag "ns=4;s=niveau" TInt16 [Read] "Water level")
                (JNum 10) StatusGood (boot tags) eq_refl) as (_ & H & _).
    apply H. vm_compute. reflexivity.
  - destruct (writeTag_preconditions tags "niveau"
                (mkTag "ns=4;s=niveau" TInt16 [Read] "Water level")
                (JNum 10) StatusGood online eq_refl) as (_ & _ & H).
    apply H; vm_compute; reflexivity.
  - destruct (writeTag_preconditions tags "ARU"
                (mkTag "ns=4;s=ARU" TBoolean [Read; Write] "Emergency stop button")
                (JBool true) StatusGood online eq_refl) as (H & _).
    apply H. vm_compute. reflexivity.
Defined.

(** C5.  For a writable tag on a connected session: a write acknowledged
    good sets the entry of that tag to the written value, leaves every
    other entry and the connection flag alone and reads nothing back; a
    write acknowledged bad, or one that throws, leaves the whole wrapper
    untouched and returns false. *)
Theorem writeTag_commit_frame
    (registry : Registry) (tagName : string) (info : TagInfo)
    (value : JsValue) (wr : WriteOutcome) (w : World) :
  lookup_tag registry tagName = Some info ->
  includes (access info) Write = true ->
  has_session w = true ->
  let w' := exec (writeTag registry tagName value wr) w in
  let r := result (writeTag registry tagName value wr) w in
  (wr = StatusGood ->
   r = Return true /\
   get w' tagName = Some value /\
   (forall other, other <> tagName -> get w' other = get w other) /\
   connected (this w') = connected (this w) /\
   effects w' = effects w ++ [session_write (nodeId info) (dataType_of (type info))
                                            value StatusGood]) /\
  (wr <> StatusGood ->
   r = Return false /\
   this w' = this w /\
   (forall any, get w' any = get w any)).
Proof.
  intros Hreg Hacc Hses.
  destruct w as [[ses sub items c vals cbs url] ctrls conns ivs tr].
  cbv zeta. unfold writeTag. js. rewrite Hreg.
  destruct ses as [ses|], c; try discriminate. cbn. rewrite Hacc. cbn.
  destruct wr as [| |e]; cbn; split; intros H; try congruence.
  - repeat split.
    + apply lookup_insert_eq.
    + intros other Hne. by apply lookup_insert_ne.
  - repeat split.
  - repeat split.
Qed.

Lemma writeTag_commit_frame_witness :
  (result (writeTag tags "ARU" (JBool true) StatusGood) online = Return true /\
   get (exec (writeTag tags "ARU" (JBool true) StatusGood) online) "ARU"
   = Some (JBool true)) /\
  (result (writeTag tags "ARU" (JBool true) StatusBad) online = Return false /\
   this (exec (writeTag tags "ARU" (JBool true) StatusBad) online) = this online).
Proof.
  pose (aru := mkTag "ns=4;s=ARU" TBoolean [Read; Write] "Emergency stop button").
  assert (Hs : has_session online = true) by (vm_compute; reflexivity).
  split.
  - destruct (writeTag_commit_frame tags "ARU" aru (JBool true) StatusGood online
                eq_refl eq_refl Hs) as (H & _).
    destruct (H eq_refl) as (H1 & H2 & _). split; assumption.
  - destruct (writeTag_commit_frame tags "ARU" aru (JBool true) StatusBad online
                eq_refl eq_refl Hs) as (_ & H).
    destruct (H ltac:(discriminate)) as (H1 & H2 & _). split; assumption.
Defined.







(** ** Unknown tags *)

(** C7, as stated, fails: on a connected session, writing or reading a
    name the registry lacks raises a [TypeError]; without a session the
    same calls report the missing connection. *)
Lemma unknown_tag_raises_TypeError :
  lookup_tag tags "debit" = None /\
  result (writeTag tags "debit" (JNum 1) StatusGood) online = Throw TypeError /\
  result (readTag tags "debit" (DataGood (JNum 1))) online = Throw TypeError /\
  result (writeTag tags "debit" (JNum 1) StatusGood) (boot tags) = Return false /\
  result (readTag tags "debit" (DataGood (JNum 1))) (boot tags) = Return JNull.
Proof. vm_compute. repeat split. Qed.

(** C7, amended.  For a name the registry lacks, the lookup yields
    [undefined]; [writeTag] and [readTag] on a connected session raise a
    [TypeError] at the access test, before any call to the session and
    with the world unchanged; without a connected session they return
    false and null after logging that there is no connection. *)
Theorem unknown_tag_behaviour
    (registry : Registry) (tagName : string)
    (value : JsValue) (wr : WriteOutcome) (rd : ReadOutcome) (w : World) :
  lookup_tag registry tagName = None ->
  (has_session w = true ->
   writeTag registry tagName value wr w = (Throw TypeError, w) /\
   readTag registry tagName rd w = (Throw TypeError, w)) /\
  (has_session w = false ->
   writeTag registry tagName value wr w
   = (Return false, add_effect (console_error "Not connected to OPC-UA server") w) /\
   readTag registry tagName rd w
   = (Return JNull, add_effect (console_error "Not connected to OPC-UA server") w)).
Proof.
  intros Hreg.
  destruct w as [[ses sub items c vals cbs url] ctrls conns ivs tr].
  unfold writeTag, readTag. js. rewrite Hreg.
  destruct ses as [ses|], c; cbn; split; intros; try discriminate; split; reflexivity.
Qed.

Lemma unknown_tag_behaviour_witness :
  (writeTag tags "debit" (JNum 1) StatusGood online = (Throw TypeError, online) /\
   readTag tags "debit" (DataGood (JNum 1)) online = (Throw TypeError, online)) /\
  (writeTag tags "debit" (JNum 1) StatusGood (boot tags)
   = (Return false, add_effect (console_error "Not connected to OPC-UA server") (boot tags)) /\
   readTag tags "debit" (DataGood (JNum 1)) (boot tags)
   = (Return JNull, add_effect (console_error "Not connected to OPC-UA server") (boot tags))).
Proof.
  split.
  - destruct (unknown_tag_behaviour tags "debit" (JNum 1) StatusGood
                (DataGood (JNum 1)) online eq_refl) as (H & _).
    apply H. vm_compute. reflexivity.
  - destruct (unknown_tag_behaviour tags "debit" (JNum 1) StatusGood
                (DataGood (JNum 1)) (boot tags) eq_refl) as (_ & H).
    apply H. vm_compute. reflexivity.
Defined.

(** ** Reading a tag *)

Example read_niveau_good :
  result (readTag tags "niveau" (DataGood (JNum 42))) online = Return (JNum 42) /\
  get (exec (readTag tags "niveau" (DataGood (JNum 42))) online) "niveau" = Some (JNum 42).
Proof. vm_compute. split; reflexivity. Qed.

(** C10.  For a registered tag [readTag] always returns and never
    raises.  It returns null, with the wrapper untouched, when there is
    no connected session, when the tag is not readable, when the status
    of the read is not good and when the read throws; on a good status
    it returns the value read and sets the tag's entry to it, leaving
    the other entries alone. *)
Theorem readTag_total
    (registry : Registry) (tagName : string) (info : TagInfo)
    (rd : ReadOutcome) (w : World) :
  lookup_tag registry tagName = Some info ->
  let w' := exec (readTag registry tagName rd) w in
  let r := result (readTag registry tagName rd) w in
  (exists v, r = Return v) /\
  (has_session w = false -> r = Return JNull /\ this w' = this w) /\
  (has_session w = true -> includes (access info) Read = false ->
   r = Return JNull /\ this w' = this w) /\
  (has_session w = true -> includes (access info) Read = true ->
   (forall v, rd <> DataGood v) ->
   r = Return JNull /\ this w' = this w) /\
  (has_session w = true -> includes (access info) Read = true ->
   forall v, rd = DataGood v ->
   r = Return v /\
   get w' tagName = Some v /\
   (forall other, other <> tagName -> get w' other = get w other)).
Proof.
  intros Hreg.
  destruct w as [[ses sub items c vals cbs url] ctrls conns ivs tr].
  cbv zeta. unfold readTag. js. rewrite Hreg.
  destruct ses as [ses|], c; cbn;
    destruct (includes (access info) Read) eqn:Hacc; cbn;
    try (repeat split; intros; try discriminate; eauto; fail).
  destruct rd as [v | | e]; cbn; repeat split; intros;
    repeat match goal with
           | H : DataGood _ = DataGood _ |- _ => injection H as <-
           | H : forall v0, DataGood ?v <> DataGood v0 |- _ => destruct (H v eq_refl)
           end;
    try discriminate; eauto.
  - apply lookup_insert_eq.
  - by apply lookup_insert_ne.
Qed.

Lemma readTag_total_witness :
  (exists v, result (readTag tags "niveau" (DataGood (JNum 42))) online = Return v) /\
  (result (readTag tags "niveau" (DataGood (JNum 42))) (boot tags) = Return JNull /\
   this (exec (readTag tags "niveau" (DataGood (JNum 42))) (boot tags)) = this (boot tags)) /\
  (result (readTag tags "niveau" DataBad) online = Return JNull /\
   this (exec (readTag tags "niveau" DataBad) online) = this online) /\
  (result (readTag tags "niveau" (DataGood (JNum 42))) online = Return (JNum 42) /\
   get (exec (readTag tags "niveau" (DataGood (JNum 42))) online) "niveau"
   = Some (JNum 42)).
Proof.
  pose (niveau := mkTag "ns=4;s=niveau" TInt16 [Read] "Water level").
  assert (Hs : has_session online = true) by (vm_compute; reflexivity).
  split; [|split; [|split]].
  - destruct (readTag_total tags "niveau" niveau (DataGood (JNum 42)) online eq_refl)
      as (H & _). exact H.
  - destruct (readTag_total tags "niveau" niveau (DataGood (JNum 42)) (boot tags) eq_refl)
      as (_ & H & _). apply H. vm_compute. reflexivity.
  - destruct (readTag_total tags "niveau" niveau DataBad online eq_refl)
      as (_ & _ & _ & H & _). apply H; [exact Hs | reflexivity | discriminate].
  - destruct (readTag_total tags "niveau" niveau (DataGood (JNum 42)) online eq_refl)
      as (_ & _ & _ & _ & H).
    destruct (H Hs eq_refl (JNum 42) eq_refl) as (H1 & H2 & _). split; assumption.
Defined.

(** ** Composing frames *)

Section Frames.

Context (R : World -> World -> Prop) `{!Reflexive R} `{!Transitive R}.

Lemma keeps_ret {A} (a : A) : keeps R (ret a).
Proof. intros w. cbn. reflexivity. Qed.

Lemma keeps_throw {A} (e : JsError) : keeps R (@throw A e).
Proof. intros w. cbn. reflexivity. Qed.

Lemma keeps_gets {A} (f : OPCUAClientWrapper -> A) : keeps R (gets f).
Proof. intros w. cbn. reflexivity. Qed.

Lemma keeps_bind {A B} (m : M A) (k : A -> M B) :
  keeps R m -> (forall a, keeps R (k a)) -> keeps R (bind m k).
Proof.
  intros Hm Hk w. unfold bind. specialize (Hm w).
  destruct (m w) as [[a|e] w1]; cbn in *; [|exact Hm].
  etransitivity; [exact Hm | apply Hk].
Qed.

Lemma keeps_try_catch {A} (m : M A) (h : JsError -> M A) :
  keeps R m -> (forall e, keeps R (h e)) -> keeps R (try_catch m h).
Proof.
  intros Hm Hh w. unfold try_catch. specialize (Hm w).
  destruct (m w) as [[a|e] w1]; cbn in *; [exact Hm|].
  etransitivity; [exact Hm | apply Hh].
Qed.

Lemma keeps_for_each {A} (l : list A) (body : A -> M unit) :
  (forall x, x ∈ l -> keeps R (body x)) -> keeps R (for_each l body).
Proof.
  induction l as [|x l IH]; intros Hbody; cbn [for_each].
  - apply keeps_ret.
  - apply keeps_bind.
    + apply Hbody. left.
    + intros _. apply IH. intros y Hy. apply Hbody. by right.
Qed.

End Frames.

Lemma returns_ret {A} (a : A) : returns (ret a).
Proof. intros w. by exists a. Qed.

Lemma returns_gets {A} (f : OPCUAClientWrapper -> A) : returns (gets f).
Proof. intros w. by eexists. Qed.

Lemma returns_assign f : returns (assign f).
Proof. intros w. by eexists. Qed.

Lemma returns_emit e : returns (emit e).
Proof. intros w. by eexists. Qed.

Lemma returns_bind {A B} (m : M A) (k : A -> M B) :
  returns m -> (forall a, returns (k a)) -> returns (bind m k).
Proof.
  intros Hm Hk w. unfold bind. destruct (Hm w) as [a Ha].
  destruct (m w) as [r w1]; cbn in Ha; subst r. apply Hk.
Qed.

Lemma returns_try_catch {A} (m : M A) (h : JsError -> M A) :
  (forall e, returns (h e)) -> returns (try_catch m h).
Proof.
  intros Hh w. unfold try_catch.
  destruct (m w) as [[a|e] w1]; [by exists a | apply Hh].
Qed.

Lemma returns_for_each {A} (l : list A) (body : A -> M unit) :
  (forall x, returns (body x)) -> returns (for_each l body).
Proof.
  intros Hbody. induction l as [|x l IH]; cbn [for_each].
  - apply returns_ret.
  - apply returns_bind; [apply Hbody | intros _; exact IH].
Qed.

(** ** Session manager: connect and the simulator *)

#[local] Instance same_snapshot_refl : Reflexive same_snapshot.
Proof. intros w. split; reflexivity. Qed.

#[local] Instance same_snapshot_trans : Transitive same_snapshot.
Proof. intros a b c [H1 H2] [H3 H4]. split; congruence. Qed.

#[local] Instance only_subscription_refl : Reflexive only_subscription.
Proof. intros w. repeat split; reflexivity. Qed.

#[local] Instance only_subscription_trans : Transitive only_subscription.
Proof.
  intros a b c (H1 & H2 & H3 & H4) (H5 & H6 & H7 & H8).
  repeat split; try congruence; etransitivity; first [apply H5 | apply H1].
Qed.

Lemma disconnect_keeps_snapshot (env : TeardownEnv) :
  keeps same_snapshot (disconnect env).
Proof.
  intros [[ses sub items c vals cbs url] ctrls conns ivs tr].
  destruct env as [rt rc rd]. unfold disconnect, same_snapshot. js.
  destruct c, sub, ses, rt as [[]|], rc as [[]|], rd as [[]|]; cbn; split; reflexivity.
Qed.

Lemma disconnect_returns (env : TeardownEnv) : returns (disconnect env).
Proof.
  unfold disconnect. apply returns_bind; [apply returns_gets|].
  intros []; cbn [negb].
  - apply returns_try_catch. intros e. apply returns_emit.
  - apply returns_ret.
Qed.

Lemma monitorTag_keeps (registry : Registry) (tagName : string) (env : ConnectEnv) :
  keeps only_subscription (monitorTag registry tagName env).
Proof.
  intros [[ses sub items c vals cbs url] ctrls conns ivs tr].
  unfold monitorTag, only_subscription, same_snapshot. js.
  destruct sub, ses; cbn; try (repeat split; reflexivity).
  destruct (lookup_tag registry tagName) as [info|]; cbn;
    [destruct (monitoredItem_result env (nodeId info)) as [[]|]; cbn|];
    repeat split; reflexivity.
Qed.

Lemma monitorTag_returns (registry : Registry) (tagName : string) (env : ConnectEnv) :
  returns (monitorTag registry tagName env).
Proof.
  unfold monitorTag.
  apply returns_bind; [apply returns_gets|]. intros sub.
  apply returns_bind; [apply returns_gets|]. intros ses.
  destruct (negb (is_some sub) || negb (is_some ses)); [apply returns_ret|].
  apply returns_try_catch. intros e. apply returns_emit.
Qed.

Lemma createSubscription_keeps (registry : Registry) (env : ConnectEnv) :
  keeps only_subscription (createSubscription registry env).
Proof.
  unfold createSubscription.
  apply keeps_bind; [apply _ | apply keeps_gets; apply _ |]. intros ses.
  apply keeps_bind; [apply _ | apply keeps_gets; apply _ |]. intros c.
  destruct (negb (is_some ses) || negb c); [apply keeps_ret; apply _|].
  apply keeps_try_catch; [apply _ | |].
  - apply keeps_bind; [apply _ | |].
    + intros w. unfold call. cbn. repeat split; reflexivity.
    + intros sub. apply keeps_bind; [apply _ | |].
      * intros w. cbn. repeat split; reflexivity.
      * intros _. apply keeps_for_each; [apply _ | apply _ |]. intros [name info] _. cbn.
        destruct (includes (access info) Read);
          [apply monitorTag_keeps | apply keeps_ret; apply _].
  - intros e w. cbn. repeat split; reflexivity.
Qed.

Lemma createSubscription_returns (registry : Registry) (env : ConnectEnv) :
  returns (createSubscription registry env).
Proof.
  unfold createSubscription.
  apply returns_bind; [apply returns_gets|]. intros ses.
  apply returns_bind; [apply returns_gets|]. intros c.
  destruct (negb (is_some ses) || negb c); [apply returns_ret|].
  apply returns_try_catch. intros e. apply returns_emit.
Qed.

Example connect_mock_in_development :
  let w := exec (connect tags endpoint (server_down "development")) (boot tags) in
  result (connect tags endpoint (server_down "development")) (boot tags) = Return true /\
  tagValues (this w) = mockInitial /\ session (this w) = None.
Proof. vm_compute. repeat split. Qed.

(** C2, as stated, fails: after the fallback to the simulator the
    wrapper reports itself connected, exactly as after a connection to a
    live server; there is no separate degraded state to tell them apart. *)
Lemma connect_mock_reports_connected :
  let mock := exec (connect tags endpoint (server_down "development")) (boot tags) in
  let real := exec (connect tags endpoint (server_up "development")) (boot tags) in
  intervals mock = [SimulateNiveau; SimulateToggle] /\
  tagValues (this mock) = mockInitial /\
  result isConnected mock = Return true /\
  intervals real = [] /\
  result isConnected real = Return true.
Proof. vm_compute. repeat split. Qed.

(** Running an abstract sub-computation [f] about which only a frame
    [Hk] and totality [Hr] are known. *)
Ltac run_sub f Hk Hr :=
  match goal with
  | |- context [f ?w0] =>
      let a := fresh "a" in
      let Ha := fresh "Ha" in
      let Hw := fresh "Hw" in
      let r := fresh "r" in
      let w1 := fresh "w" in
      destruct (Hr w0) as [a Ha]; pose proof (Hk w0) as Hw;
      destruct (f w0) as [r w1]; cbn [fst snd] in Ha, Hw; subst r;
      destruct w1 as [[? ? ? ? ? ? ?] ? ? ? ?];
      unfold keeps, only_subscription, same_snapshot in Hw; cbn in Hw
  end.

(** C2, amended.  [connect] never raises.  The simulator is started by
    a call of [connect] only when [NODE_ENV] is development, and the
    wrapper then reports itself connected (as after a real connection) and
    returns true, its snapshot being the simulator's initial values.  In
    any other configuration the simulator is never started and the
    snapshot is left alone, and an attempt that fails returns false. *)
Theorem connect_fallback_only_in_development
    (registry : Registry) (endpointUrl : string) (env : ConnectEnv) (w : World) :
  let w' := exec (connect registry endpointUrl env) w in
  let r := result (connect registry endpointUrl env) w in
  (exists b, r = Return b) /\
  (intervals w' <> intervals w ->
   NODE_ENV env = "development" /\
   r = Return true /\
   result isConnected w' = Return true /\
   tagValues (this w') = mockInitial) /\
  (attempts w endpointUrl = true -> attempt_fails env = false ->
   r = Return true /\
   result isConnected w' = Return true /\
   same_snapshot w w') /\
  (attempts w endpointUrl = true -> attempt_fails env = true ->
   NODE_ENV env = "development" ->
   r = Return true /\
   result isConnected w' = Return true /\
   intervals w' = intervals w ++ [SimulateNiveau; SimulateToggle]) /\
  (NODE_ENV env <> "development" ->
   same_snapshot w w' /\
   (attempts w endpointUrl = true -> attempt_fails env = true -> r = Return false)).
Proof.
  cbv zeta. unfold connect.
  pose proof (createSubscription_keeps registry env) as Hks.
  pose proof (createSubscription_returns registry env) as Hrs.
  pose proof (disconnect_keeps_snapshot (teardown env)) as Hkd.
  pose proof (disconnect_returns (teardown env)) as Hrd.
  generalize dependent (createSubscription registry env). intros subscribe Hks Hrs.
  generalize dependent (disconnect (teardown env)). intros dis Hkd Hrd.
  destruct w as [[ses sub items c vals cbs url] ctrls conns ivs tr].
  unfold attempts, attempt_fails, same_snapshot, only_subscription, isConnected,
    race_connect, mockTagValues, set_interval, add_interval in *. js.
  destruct c; cbn;
    [destruct (bool_decide (url = endpointUrl)) eqn:Hurl; cbn;
     [repeat split; intros; try congruence; eauto |
      run_sub dis Hkd Hrd; destruct Hw as [-> ->]; cbn] |];
    (destruct (transport env) as [|e|]; cbn;
      [destruct (createSession_result env) as [s|e]; cbn;
       [run_sub subscribe Hks Hrs;
        destruct Hw as ([-> ->] & -> & _ & _); cbn|]
      |..];
      destruct (bool_decide (NODE_ENV env = "development")) eqn:Hdev; cbn;
        try apply bool_decide_eq_true in Hdev;
        try apply bool_decide_eq_false in Hdev;
        repeat split; intros; try congruence; eauto;
        rewrite <- app_assoc; reflexivity).
Qed.

Lemma connect_fallback_only_in_development_witness :
  (NODE_ENV (server_down "development") = "development" /\
   result (connect tags endpoint (server_down "development")) (boot tags) = Return true /\
   result isConnected (exec (connect tags endpoint (server_down "development")) (boot tags))
   = Return true /\
   tagValues (this (exec (connect tags endpoint (server_down "development")) (boot tags)))
   = mockInitial) /\
  (result (connect tags endpoint (server_up "production")) (boot tags) = Return true /\
   result isConnected (exec (connect tags endpoint (server_up "production")) (boot tags))
   = Return true /\
   same_snapshot (boot tags)
                 (exec (connect tags endpoint (server_up "production")) (boot tags))) /\
  (result (connect tags endpoint (server_down "development")) (boot tags) = Return true /\
   result isConnected (exec (connect tags endpoint (server_down "development")) (boot tags))
   = Return true /\
   intervals (exec (connect tags endpoint (server_down "development")) (boot tags))
   = intervals (boot tags) ++ [SimulateNiveau; SimulateToggle]) /\
  (same_snapshot (boot tags)
                 (exec (connect tags endpoint (server_down "production")) (boot tags)) /\
   result (connect tags endpoint (server_down "production")) (boot tags) = Return false).
Proof.
  split; [|split; [|split]].
  - destruct (connect_fallback_only_in_development tags endpoint
                (server_down "development") (boot tags)) as (_ & H & _).
    apply H. vm_compute. discriminate.
  - destruct (connect_fallback_only_in_development tags endpoint
                (server_up "production") (boot tags)) as (_ & _ & H & _).
    apply H; vm_compute; reflexivity.
  - destruct (connect_fallback_only_in_development tags endpoint
                (server_down "development") (boot tags)) as (_ & _ & _ & H & _).
    apply H; vm_compute; reflexivity.
  - destruct (connect_fallback_only_in_development tags endpoint
                (server_down "production") (boot tags)) as (_ & _ & _ & _ & H).
    destruct (H ltac:(vm_compute; discriminate)) as [H1 H2].
    split; [exact H1 | apply H2; vm_compute; reflexivity].
Defined.

(** ** Distribution channel *)

(** Walking down a computation to its primitive steps, [leaf] closing
    the goals that remain. *)
Ltac frame leaf :=
  cbv beta zeta;
  lazymatch goal with
  | |- keeps _ (bind _ _) =>
      apply keeps_bind; [apply _ | frame leaf | intros ?; frame leaf]
  | |- keeps _ (try_catch _ _) =>
      apply keeps_try_catch; [apply _ | frame leaf | intros ?; frame leaf]
  | |- keeps _ (for_each _ _) =>
      apply keeps_for_each; [apply _ | apply _ | intros ? _; frame leaf]
  | |- keeps _ (ret _) => apply keeps_ret; apply _
  | |- keeps _ (throw _) => apply keeps_throw; apply _
  | |- keeps _ (gets _) => apply keeps_gets; apply _
  | |- keeps _ (deref _) => unfold deref; frame leaf
  | |- keeps _ (if ?b then _ else _) => destruct b; frame leaf
  | |- keeps _ (match ?x with _ => _ end) => destruct x; frame leaf
  | |- keeps _ _ => leaf
  end.

#[local] Instance streams_grow_refl : Reflexive streams_grow_by_tags.
Proof.
  intros w k c Hk. exists c, []. rewrite app_nil_r. repeat split; [done | constructor].
Qed.

#[local] Instance streams_grow_trans : Transitive streams_grow_by_tags.
Proof.
  intros a b c Hab Hbc k x Hk.
  destruct (Hab k x Hk) as (y & tl1 & Hy & Hq1 & Ht1).
  destruct (Hbc k y Hy) as (z & tl2 & Hz & Hq2 & Ht2).
  exists z, (tl1 ++ tl2). split; [done|]. split.
  - rewrite Hq2, Hq1. by rewrite app_assoc.
  - by apply Forall_app.
Qed.

Lemma streams_untouched (w w' : World) :
  controllers w' = controllers w -> streams_grow_by_tags w w'.
Proof.
  intros H k c Hk. exists c, []. rewrite H, app_nil_r.
  repeat split; [done | constructor].
Qed.

Lemma enqueue_tag_grows (k : nat) (tagName : string) (value : JsValue) :
  keeps streams_grow_by_tags (enqueue k (TagData tagName value)).
Proof.
  intros w. unfold enqueue.
  destruct (controllers w !! k) as [c|] eqn:Hc; [|reflexivity].
  destruct (open c); [|reflexivity]. cbn. unfold set_controllers.
  intros j x Hj. cbn [controllers]. destruct (decide (j = k)) as [->|Hne].
  - rewrite Hc in Hj. injection Hj as <-.
    eexists _, [TagData tagName value]. split.
    + apply list_lookup_insert_eq. by eapply lookup_lt_Some.
    + split; [reflexivity | repeat constructor].
  - exists x, []. rewrite app_nil_r. split.
    + by rewrite list_lookup_insert_ne.
    + split; [done | constructor].
Qed.

Lemma close_controller_grows (k : nat) :
  keeps streams_grow_by_tags (close_controller k).
Proof.
  intros w. unfold close_controller.
  destruct (controllers w !! k) as [c|] eqn:Hc; [|reflexivity]. cbn.
  unfold set_controllers. intros j x Hj. cbn [controllers]. destruct (decide (j = k)) as [->|Hne].
  - rewrite Hc in Hj. injection Hj as <-.
    eexists _, []. rewrite app_nil_r. split.
    + apply list_lookup_insert_eq. by eapply lookup_lt_Some.
    + split; [reflexivity | constructor].
  - exists x, []. rewrite app_nil_r. split.
    + by rewrite list_lookup_insert_ne.
    + split; [done | constructor].
Qed.

(** What one run of [start] leaves behind. *)
Lemma start_run (id : string) (w : World) :
  start id w
  = (Return (length (controllers w)),
     mkWorld (set_onUpdateCallbacks
                (onUpdateCallbacks (this w) ++ [(length (controllers w), id)]) (this w))
             (controllers w
              ++ [mkController id [Ping; InitialData (tagValues (this w))] true])
             (activeConnections w ++ [(length (controllers w), id)])
             (intervals w) (effects w)).
Proof.
  destruct w as [o ctrls conns ivs tr].
  unfold start, new_controller, add_connection, onTagUpdate, getAllTagValues, enqueue.
  js. cbn [set_controllers set_activeConnections controllers this activeConnections
           intervals effects].
  rewrite lookup_app_r by lia. rewrite Nat.sub_diag. cbn.
  rewrite insert_app_r_alt by lia. rewrite Nat.sub_diag. cbn.
  rewrite lookup_app_r by lia. rewrite Nat.sub_diag. cbn.
  rewrite insert_app_r_alt by lia. rewrite Nat.sub_diag. cbn.
  destruct o; reflexivity.
Qed.

Lemma start_grows (id : string) : keeps streams_grow_by_tags (start id).
Proof.
  intros w. rewrite start_run. cbn. intros k c Hk.
  exists c, []. rewrite app_nil_r. split.
  - by apply lookup_app_l_Some.
  - split; [done | constructor].
Qed.

(** Steps that do not touch any stream. *)
Ltac stream_leaf :=
  first
    [ apply enqueue_tag_grows
    | apply close_controller_grows
    | apply start_grows
    | intros ?w; apply streams_untouched; reflexivity ].

Lemma update_callback_grows cb tagName value :
  keeps streams_grow_by_tags (update_callback cb tagName value).
Proof. unfold update_callback. frame stream_leaf. Qed.

Lemma notify_grows tagName value :
  keeps streams_grow_by_tags (notify tagName value).
Proof. unfold notify. frame ltac:(apply update_callback_grows). Qed.

Ltac unfold_methods :=
  unfold connect, disconnect, createSubscription, monitorTag, race_connect,
         mockTagValues, writeTag, readTag, readAllTags, store, notify,
         on_abort, on_cancel, on_changed, simulate_niveau, simulate_toggle,
         GET, isConnected, getConnectionUrl, getAllTagValues, unsubscribe,
         onTagUpdate.

Ltac stream_frame :=
  frame ltac:(first [ stream_leaf
                    | apply update_callback_grows
                    | progress unfold_methods; stream_frame ]).

Lemma readTag_grows registry tagName rd :
  keeps streams_grow_by_tags (readTag registry tagName rd).
Proof. stream_frame. Qed.

Lemma read_each_grows registry names reads :
  keeps streams_grow_by_tags (read_each registry names reads).
Proof.
  induction names as [|tagName names IH]; cbn [read_each].
  - stream_frame.
  - frame ltac:(first [apply readTag_grows | exact IH]).
Qed.

Ltac stream_frame_all :=
  frame ltac:(first [ apply read_each_grows
                    | stream_leaf
                    | apply update_callback_grows
                    | progress unfold_methods; stream_frame_all ]).

(** Whatever happens to the process, existing streams only receive
    per-tag events. *)
Lemma step_grows registry (op : Op) (w : World) :
  streams_grow_by_tags w (step registry op w).
Proof.
  destruct op; cbn [step]; unfold exec;
    repeat match goal with
           | |- context [match ?x with _ => _ end] => destruct x
           end;
    try reflexivity;
    match goal with
    | |- streams_grow_by_tags ?w (snd (?m ?w)) =>
        revert w; change (keeps streams_grow_by_tags m)
    end;
    stream_frame_all.
Qed.

Lemma run_grows registry (ops : list Op) (w : World) :
  streams_grow_by_tags w (run registry ops w).
Proof.
  revert w. induction ops as [|op ops IH]; intros w; cbn.
  - reflexivity.
  - etransitivity; [apply step_grows | apply IH].
Qed.

Lemma tags_hold_no_initial (live : list Chunk) :
  Forall (fun c => is_tag c = true) live -> List.filter is_initial live = [].
Proof.
  induction 1 as [|c l Hc Hl IHl]; [reflexivity|].
  cbn. destruct c; try discriminate. exact IHl.
Qed.

Example attach_then_change :
  let w1 := exec (start "c1") online in
  stream (run tags [OpChanged "niveau" (JNum 7); OpChanged "ARU" (JBool true)] w1) 0
  = [Ping; InitialData (tagValues (this online));
     TagData "niveau" (JNum 7); TagData "ARU" (JBool true)].
Proof. vm_compute. reflexivity. Qed.

(** C8.  [start], the attach of the route, hands the new listener the
    keep-alive line and then the full snapshot taken at that moment;
    whatever happens to the process afterwards, every later chunk of
    that listener's stream is a per-tag event.  So the stream carries
    exactly one initial event, and it comes before every tag event. *)
Theorem attach_initial_snapshot_first
    (registry : Registry) (id : string) (ops : list Op) (w : World) :
  let k := length (controllers w) in
  let w' := run registry ops (exec (start id) w) in
  result (start id) w = Return k /\
  stream (exec (start id) w) k = [Ping; InitialData (tagValues (this w))] /\
  (exists live,
     stream w' k = [Ping; InitialData (tagValues (this w))] ++ live /\
     Forall (fun c => is_tag c = true) live) /\
  length (List.filter is_initial (stream w' k)) = 1.
Proof.
  cbv zeta. unfold exec, result. rewrite start_run. cbn [fst snd].
  set (w1 := mkWorld _ _ _ _ _).
  assert (Hk : controllers w1 !! length (controllers w)
               = Some (mkController id [Ping; InitialData (tagValues (this w))] true)).
  { subst w1. cbn [controllers]. rewrite lookup_app_r by lia.
    by rewrite Nat.sub_diag. }
  destruct (run_grows registry ops w1 _ _ Hk) as (c' & live & Hc' & Hq & Hlive).
  cbn [queue] in Hq.
  assert (Hs : stream (run registry ops w1) (length (controllers w))
               = [Ping; InitialData (tagValues (this w))] ++ live).
  { unfold stream. by rewrite Hc'. }
  split; [reflexivity|]. split; [|split].
  - unfold stream. by rewrite Hk.
  - exists live. by split.
  - rewrite Hs. cbn. by rewrite tags_hold_no_initial.
Qed.

(** ** Tag value store: the invariant *)

#[local] Instance quiet_refl : Reflexive quiet.
Proof. intros w. repeat split. exists []. by rewrite app_nil_r. Qed.

#[local] Instance quiet_trans : Transitive quiet.
Proof.
  intros a b c (H1 & H2 & H3 & l1 & H4) (H5 & H6 & H7 & l2 & H8).
  repeat split; try congruence.
  exists (l1 ++ l2). by rewrite H8, H4, app_assoc.
Qed.

#[local] Instance preserved_refl (P : World -> Prop) : Reflexive (preserved P).
Proof. intros w H. exact H. Qed.

#[local] Instance preserved_trans (P : World -> Prop) : Transitive (preserved P).
Proof. intros a b c Hab Hbc H. auto. Qed.

Lemma existsb_more {A} (f : A -> bool) (l more : list A) :
  existsb f l = true -> existsb f (l ++ more) = true.
Proof. intros H. rewrite existsb_app, H. reflexivity. Qed.

Lemma evidenced_more registry tagName tr more :
  evidenced registry tagName tr -> evidenced registry tagName (tr ++ more).
Proof.
  intros (info & H1 & H2 & H3). exists info. repeat split; try done.
  by apply existsb_more.
Qed.

Lemma snapshot_invariant_evidenced registry w :
  snapshot_invariant registry w <->
  (forall tagName v, get w tagName = Some v -> v <> JNull ->
                     evidenced registry tagName (effects w)).
Proof. reflexivity. Qed.

Lemma consistent_quiet registry (w w' : World) :
  quiet w w' -> store_consistent registry w -> store_consistent registry w'.
Proof.
  intros (Hv & Hm & Hi & more & He) (H1 & H2 & H3).
  split; [|split].
  - intros tagName v Hget Hv'. unfold get in Hget. rewrite Hv in Hget.
    rewrite He. apply evidenced_more. by apply (H1 tagName v).
  - intros tagName. rewrite Hm. apply H2.
  - rewrite Hi, He. intros Hne. by apply existsb_more, H3.
Qed.

Lemma quiet_preserves registry {A} (m : M A) :
  keeps quiet m -> keeps (preserved (store_consistent registry)) m.
Proof. intros H w HI. eapply consistent_quiet; [apply H | exact HI]. Qed.

(** Storing a value that is null or backed by evidence. *)
Lemma consistent_store registry (tagName : string) (v : JsValue) (w : World) :
  store_consistent registry w ->
  backed registry (effects w) (tagName, v) ->
  store_consistent registry (exec (store tagName v) w).
Proof.
  intros (H1 & H2 & H3) Hb. split; [|split]; [|exact H2|exact H3].
  intros name x Hget Hx. unfold_js. cbn in Hget |- *.
  destruct (decide (name = tagName)) as [->|Hne].
  - rewrite lookup_insert_eq in Hget. injection Hget as <-.
    destruct Hb as [Hnull|Hev]; [done | exact Hev].
  - rewrite lookup_insert_ne in Hget by done. by apply (H1 name x).
Qed.

Lemma quiet_same (w w' : World) :
  this w' = this w -> intervals w' = intervals w -> effects w' = effects w ->
  quiet w w'.
Proof.
  intros H1 H2 H3. unfold quiet. rewrite H1, H2, H3.
  repeat split. exists []. by rewrite app_nil_r.
Qed.

Lemma quiet_emit e : keeps quiet (emit e).
Proof. intros w. repeat split. by exists [e]. Qed.

Lemma quiet_call {A} e (answer : Completion A) : keeps quiet (call e answer).
Proof. intros w. repeat split. by exists [e]. Qed.

Lemma quiet_assign (f : OPCUAClientWrapper -> OPCUAClientWrapper) :
  (forall o, tagValues (f o) = tagValues o /\ monitoredItems (f o) = monitoredItems o) ->
  keeps quiet (assign f).
Proof.
  intros Hf w. destruct (Hf (this w)) as [H1 H2].
  repeat split; try done. exists []. cbn. by rewrite app_nil_r.
Qed.

Lemma quiet_enqueue k chunk : keeps quiet (enqueue k chunk).
Proof.
  intros w. unfold enqueue.
  destruct (controllers w !! k) as [c|]; [destruct (open c)|]; by apply quiet_same.
Qed.

Lemma quiet_close_controller k : keeps quiet (close_controller k).
Proof.
  intros w. unfold close_controller.
  destruct (controllers w !! k) as [c|]; by apply quiet_same.
Qed.

Ltac quiet_leaf :=
  first
    [ apply quiet_emit
    | apply quiet_call
    | apply quiet_enqueue
    | apply quiet_close_controller
    | apply quiet_assign; intros ?o; split; reflexivity
    | intros ?w; apply quiet_same; reflexivity ].

Ltac quiet_frame :=
  frame ltac:(first [ quiet_leaf
                    | progress (unfold update_callback, start, new_controller);
                      quiet_frame
                    | progress unfold_methods; quiet_frame ]).

Lemma quiet_notify tagName value : keeps quiet (notify tagName value).
Proof. quiet_frame. Qed.

Lemma quiet_disconnect env : keeps quiet (disconnect env).
Proof. quiet_frame. Qed.

Lemma quiet_start id : keeps quiet (start id).
Proof. quiet_frame. Qed.

Lemma quiet_on_abort k id : keeps quiet (on_abort k id).
Proof. quiet_frame. Qed.

Lemma quiet_on_cancel id : keeps quiet (on_cancel id).
Proof. quiet_frame. Qed.

(** Every tag of the shipped registry is readable. *)
Lemma tags_all_readable (tagName : string) (info : TagInfo) :
  lookup_tag tags tagName = Some info -> includes (access info) Read = true.
Proof.
  unfold tags. cbn [lookup_tag].
  repeat (destruct (String.eqb _ tagName); [intros [= <-]; reflexivity|]).
  discriminate.
Qed.

Lemma tags_registered_readable (tagName : string) (info : TagInfo) :
  lookup_tag tags tagName = Some info -> readable tags tagName = true.
Proof.
  intros H. unfold readable. rewrite H. by eapply tags_all_readable.
Qed.

Lemma readable_registered registry (tagName : string) :
  readable registry tagName = true ->
  exists info, lookup_tag registry tagName = Some info /\
               includes (access info) Read = true.
Proof.
  unfold readable. destruct (lookup_tag registry tagName) as [info|]; [|done].
  intros H. by exists info.
Qed.

Ltac solve_quiet :=
  unfold quiet; cbn;
  split; [reflexivity | split; [reflexivity | split; [reflexivity|]]];
  first [ exists []; by rewrite app_nil_r
        | by eexists
        | eexists; rewrite <- !app_assoc; reflexivity ].

Ltac grown :=
  first [ exists []; by rewrite app_nil_r
        | by eexists
        | eexists; rewrite <- !app_assoc; reflexivity ].

Ltac still_consistent H :=
  eapply consistent_quiet; [|exact H]; solve_quiet.

Section Invariant.

(** The invariant is kept for every registry whose tags are all readable
    and which holds the tags the simulator writes; the shipped registry
    is one. *)
Variable registry : Registry.
Hypothesis all_readable :
  forall tagName info,
    lookup_tag registry tagName = Some info -> includes (access info) Read = true.
Hypothesis mock_registered :
  forall tagName v, mockInitial !! tagName = Some v -> readable registry tagName = true.

#[local] Abbreviation consistent := (store_consistent registry).

(** [readTag] keeps the invariant, and what it returns is null or backed
    by the read it has just made. *)
Lemma readTag_backed (tagName : string) (rd : ReadOutcome) (w : World) :
  consistent w ->
  consistent (exec (readTag registry tagName rd) w) /\
  (forall v, result (readTag registry tagName rd) w = Return v ->
             backed registry (effects (exec (readTag registry tagName rd) w)) (tagName, v)) /\
  (exists more, effects (exec (readTag registry tagName rd) w) = effects w ++ more).
Proof.
  intros HI.
  destruct w as [[ses sub items c vals cbs url] ctrls conns ivs tr].
  unfold readTag, backed. js.
  destruct ses as [ses|], c; cbn;
    try (split; [still_consistent HI | split; [intros v [= <-]; by left | grown]]).
  destruct (lookup_tag registry tagName) as [info|] eqn:Hreg; cbn;
    [|split; [still_consistent HI | split; [discriminate | grown]]].
  destruct (includes (access info) Read) eqn:Hacc; cbn;
    [|split; [still_consistent HI | split; [intros v [= <-]; by left | grown]]].
  destruct rd as [v| |e]; cbn;
    try (split; [still_consistent HI | split; [intros v' [= <-]; by left | grown]]).
  assert (Hev : evidenced registry tagName
                          (tr ++ [session_read (nodeId info) (DataGood v)])).
  { exists info. split; [done|]. split; [done|].
    rewrite existsb_app. cbn. unfold evidence. cbn.
    rewrite bool_decide_eq_true_2 by done. cbn. apply orb_true_r. }
  split.
  - eapply (consistent_store registry tagName v
              (mkWorld (mkWrapper (Some ses) sub items true vals cbs url)
                       ctrls conns ivs
                       (tr ++ [session_read (nodeId info) (DataGood v)]))).
    + still_consistent HI.
    + by right.
  - split; [intros v' [= <-]; by right | grown].
Qed.

Lemma writeTag_preserves (tagName : string) (value : JsValue) (wr : WriteOutcome) :
  keeps (preserved consistent) (writeTag registry tagName value wr).
Proof.
  intros w HI.
  destruct w as [[ses sub items c vals cbs url] ctrls conns ivs tr].
  unfold writeTag. js.
  destruct ses as [ses|], c; cbn; try still_consistent HI.
  destruct (lookup_tag registry tagName) as [info|] eqn:Hreg; cbn;
    [|still_consistent HI].
  destruct (includes (access info) Write) eqn:Hacc; cbn; [|still_consistent HI].
  destruct wr as [| |e]; cbn; try still_consistent HI.
  eapply (consistent_store registry tagName value
            (mkWorld (mkWrapper (Some ses) sub items true vals cbs url)
                     ctrls conns ivs
                     (tr ++ [session_write (nodeId info) (dataType_of (type info))
                                           value StatusGood]))).
  - still_consistent HI.
  - right. exists info. split; [done|]. split; [by eapply all_readable|].
    cbn [effects fst]. rewrite existsb_app. cbn. unfold evidence. cbn.
    rewrite bool_decide_eq_true_2 by done. cbn. apply orb_true_r.
Qed.

Lemma bind_run {A B} (m : M A) (k : A -> M B) (w : World) :
  bind m k w = match m w with
               | (Return a, w') => k a w'
               | (Throw e, w') => (Throw e, w')
               end.
Proof. reflexivity. Qed.

Lemma backed_more (tr more : list Effect) (r : string * JsValue) :
  backed registry tr r -> backed registry (tr ++ more) r.
Proof. intros [H|H]; [by left | right; by apply evidenced_more]. Qed.

Lemma read_each_backed (names : list string) (reads : string -> ReadOutcome) (w : World) :
  consistent w ->
  consistent (exec (read_each registry names reads) w) /\
  (forall results,
     result (read_each registry names reads) w = Return results ->
     Forall (backed registry (effects (exec (read_each registry names reads) w))) results) /\
  (exists more, effects (exec (read_each registry names reads) w) = effects w ++ more).
Proof.
  revert w. induction names as [|tagName names IH]; intros w HI.
  - unfold exec, result. cbn. split; [done|].
    split; [intros ? [= <-]; constructor | grown].
  - destruct (readTag_backed tagName (reads tagName) w HI) as (H1 & H2 & more1 & H3).
    unfold exec, result in *. cbn [read_each]. rewrite bind_run.
    destruct (readTag registry tagName (reads tagName) w) as [[v|e] w1];
      cbn [fst snd] in *; [|split; [done|]; split; [intros ? [=] | by exists more1]].
    destruct (IH w1 H1) as (H4 & H5 & more2 & H6).
    rewrite bind_run.
    destruct (read_each registry names reads w1) as [[results|e] w2];
      cbn [fst snd ret] in *.
    + split; [done|]. split.
      * intros ? [= <-]. constructor; [|by apply H5].
        rewrite H6. by apply backed_more, H2.
      * exists (more1 ++ more2). by rewrite H6, H3, app_assoc.
    + split; [done|]. split; [intros ? [=]|].
      exists (more1 ++ more2). by rewrite H6, H3, app_assoc.
Qed.

Lemma store_results (results : list (string * JsValue)) (w : World) :
  consistent w ->
  Forall (backed registry (effects w)) results ->
  consistent (exec (for_each results (fun r => store (fst r) (snd r))) w).
Proof.
  revert w. induction results as [|[tagName v] results IH]; intros w HI Hall; [done|].
  inversion Hall as [|? ? Hb Hrest]; subst.
  change (exec (for_each ((tagName, v) :: results) (fun r => store (fst r) (snd r))) w)
    with (exec (for_each results (fun r => store (fst r) (snd r)))
               (exec (store tagName v) w)).
  apply IH; [by apply consistent_store | exact Hrest].
Qed.

Lemma readAllTags_preserves (reads : string -> ReadOutcome) :
  keeps (preserved consistent) (readAllTags registry reads).
Proof.
  intros w HI. unfold readAllTags.
  unfold bind at 1. cbn [gets fst snd]. unfold bind at 1. cbn [gets].
  destruct (negb (is_some (session (this w))) || negb (connected (this w))).
  - eapply consistent_quiet; [|exact HI].
    destruct w as [[] ? ? ? ?]. solve_quiet.
  - destruct (read_each_backed (readable_keys registry) reads w HI) as (H1 & H2 & _).
    unfold exec, result in *. unfold bind at 1.
    destruct (read_each registry (readable_keys registry) reads w) as [[results|e] w1];
      cbn [fst snd] in *; [|done].
    specialize (H2 results eq_refl).
    pose proof (store_results results w1 H1 H2) as H3. unfold exec in H3.
    unfold bind.
    destruct (for_each results (fun r => store (fst r) (snd r)) w1) as [[[]|e] w2];
      cbn [fst snd gets] in *; exact H3.
Qed.

Lemma mockTagValues_preserves : keeps (preserved consistent) mockTagValues.
Proof.
  intros [o ctrls conns ivs tr] (H1 & H2 & H3).
  unfold mockTagValues, set_interval, add_interval. js.
  split; [|split].
  - intros tagName v Hget _. unfold get in Hget. cbn in Hget.
    destruct (readable_registered registry tagName (mock_registered _ _ Hget))
      as (info & Hreg & Hacc).
    exists info. split; [done|]. split; [done|].
    cbn [effects]. rewrite !existsb_app. cbn. unfold evidence. cbn.
    rewrite !orb_true_r. reflexivity.
  - destruct o; exact H2.
  - intros _. cbn [effects]. rewrite !existsb_app. cbn. apply orb_true_r.
Qed.

Lemma monitorTag_preserves (tagName : string) (env : ConnectEnv) :
  keeps (preserved consistent) (monitorTag registry tagName env).
Proof.
  intros w HI.
  destruct w as [[ses sub items c vals cbs url] ctrls conns ivs tr].
  unfold monitorTag. js.
  destruct sub, ses; cbn; try still_consistent HI.
  destruct (lookup_tag registry tagName) as [info|] eqn:Hreg; cbn;
    [|still_consistent HI].
  destruct (monitoredItem_result env (nodeId info)) as [[]|e]; cbn;
    [|still_consistent HI].
  destruct HI as (H1 & H2 & H3). split; [|split].
  - intros name v Hget Hv. cbn [effects]. apply evidenced_more. by apply (H1 name v).
  - intros name Hin. cbn in Hin. apply elem_of_union in Hin as [Hin|Hin].
    + apply elem_of_singleton in Hin as ->.
      unfold readable. rewrite Hreg. by eapply all_readable.
    + by apply H2.
  - intros Hne. cbn [effects]. by apply existsb_more, H3.
Qed.

Lemma readTag_preserves (tagName : string) (rd : ReadOutcome) :
  keeps (preserved consistent) (readTag registry tagName rd).
Proof. intros w HI. by destruct (readTag_backed tagName rd w HI) as (H & _). Qed.

Ltac inv_leaf :=
  first
    [ apply monitorTag_preserves
    | apply mockTagValues_preserves
    | apply writeTag_preserves
    | apply readTag_preserves
    | apply readAllTags_preserves
    | apply quiet_preserves;
      first [ quiet_leaf | apply quiet_disconnect | apply quiet_start
            | apply quiet_on_abort | apply quiet_on_cancel | apply quiet_notify ] ].

Ltac inv_frame :=
  frame ltac:(first [ inv_leaf
                    | progress (unfold connect, createSubscription, race_connect,
                                GET, isConnected, getConnectionUrl);
                      inv_frame ]).

Lemma connect_preserves (endpointUrl : string) (env : ConnectEnv) :
  keeps (preserved consistent) (connect registry endpointUrl env).
Proof. inv_frame. Qed.

Lemma GET_preserves url id env reads :
  keeps (preserved consistent) (GET registry url id env reads).
Proof. inv_frame. Qed.

Lemma started_is_evidence (tagName node : string) (tr : list Effect) :
  existsb simulator_started tr = true -> existsb (evidence tagName node) tr = true.
Proof.
  induction tr as [|e tr IH]; cbn; [done|].
  intros [H|H]%orb_true_iff.
  - unfold evidence. rewrite H. by rewrite orb_true_r.
  - rewrite (IH H). apply orb_true_r.
Qed.

(** A value stored and announced, as the change handler and the two
    interval bodies do. *)
Lemma store_notify_preserves (tagName : string) (v : JsValue) (w : World) :
  consistent w ->
  backed registry (effects w) (tagName, v) ->
  consistent (exec (store tagName v ;; notify tagName v) w).
Proof.
  intros HI Hb. unfold exec. rewrite bind_run.
  change (store tagName v w) with (Return tt, exec (store tagName v) w).
  cbv iota beta.
  apply (quiet_preserves registry _ (quiet_notify tagName v)).
  by apply consistent_store.
Qed.

Lemma on_changed_preserves (tagName : string) (v : JsValue) (w : World) :
  tagName ∈ monitoredItems (this w) ->
  consistent w ->
  consistent (exec (on_changed tagName v) w).
Proof.
  intros Hin HI. unfold on_changed, exec. rewrite bind_run.
  change (emit (item_changed tagName v) w)
    with (Return tt, add_effect (item_changed tagName v) w).
  cbv iota beta.
  apply store_notify_preserves.
  - eapply consistent_quiet; [|exact HI]. destruct w. solve_quiet.
  - right. destruct HI as (_ & H2 & _).
    destruct (readable_registered registry tagName (H2 _ Hin)) as (info & Hreg & Hacc).
    exists info. split; [done|]. split; [done|].
    cbn [effects add_effect fst]. rewrite existsb_app. cbn. unfold evidence. cbn.
    rewrite bool_decide_eq_true_2 by done. cbn. apply orb_true_r.
Qed.

Lemma simulated_is_backed (tagName : string) (v old : JsValue) (w : World) :
  consistent w ->
  intervals w <> [] ->
  mockInitial !! tagName = Some old ->
  backed registry (effects w) (tagName, v).
Proof.
  intros (_ & _ & H3) Hne Hmock. right.
  destruct (readable_registered registry tagName (mock_registered _ _ Hmock))
    as (info & Hreg & Hacc).
  exists info. split; [done|]. split; [done|].
  by apply started_is_evidence, H3.
Qed.

Lemma simulate_niveau_preserves (newNiveau : Z) (w : World) :
  intervals w <> [] ->
  consistent w ->
  consistent (exec (simulate_niveau newNiveau) w).
Proof.
  intros Hne HI. apply store_notify_preserves; [done|].
  by apply (simulated_is_backed "niveau" _ (JNum 65)).
Qed.

Lemma candidate_in_mock (i : nat) :
  mockInitial !! nth i mockCandidates "BPpompe" = Some (JBool true).
Proof. do 5 (destruct i as [|i]; [reflexivity|]). reflexivity. Qed.

Lemma simulate_toggle_preserves (pick : nat) (w : World) :
  intervals w <> [] ->
  consistent w ->
  consistent (exec (simulate_toggle pick) w).
Proof.
  intros Hne HI. unfold simulate_toggle, exec. cbv zeta. rewrite bind_run.
  cbn [gets]. cbv iota beta.
  apply store_notify_preserves; [done|].
  eapply simulated_is_backed; [done | done | apply candidate_in_mock].
Qed.

Lemma quiet_cancel k id : keeps quiet (close_controller k ;; on_cancel id).
Proof. quiet_frame. Qed.

(** Every operation of the subsystem keeps the invariant. *)
Lemma step_preserves (op : Op) (w : World) :
  consistent w -> consistent (step registry op w).
Proof.
  intros HI. destruct op; cbn [step].
  - by apply connect_preserves.
  - by apply (quiet_preserves registry _ (quiet_disconnect env)).
  - by apply readTag_preserves.
  - by apply readAllTags_preserves.
  - by apply writeTag_preserves.
  - by apply GET_preserves.
  - by apply (quiet_preserves registry _ (quiet_start id)).
  - destruct (controllers w !! k) as [c|]; [|done].
    by apply (quiet_preserves registry _ (quiet_on_abort k (connectionId c))).
  - destruct (controllers w !! k) as [c|]; [|done].
    by apply (quiet_preserves registry _ (quiet_cancel k (connectionId c))).
  - destruct (bool_decide (tagName ∈ monitoredItems (this w))) eqn:Hin; [|done].
    apply bool_decide_eq_true in Hin. by apply on_changed_preserves.
  - destruct (intervals w !! i) as [[]|] eqn:Hi; [| |done].
    + apply simulate_niveau_preserves; [|done]. intros E. by rewrite E in Hi.
    + apply simulate_toggle_preserves; [|done]. intros E. by rewrite E in Hi.
Qed.

Lemma run_preserves (ops : list Op) (w : World) :
  consistent w -> consistent (run registry ops w).
Proof.
  revert w. induction ops as [|op ops IH]; intros w HI; [done|].
  cbn. apply IH. by apply step_preserves.
Qed.

Lemma constructor_all_null (names : list string) (m : gmap string JsValue) :
  (forall tagName v, m !! tagName = Some v -> v = JNull) ->
  forall tagName v,
    foldl (fun m tagName => <[tagName := JNull]> m) m names !! tagName = Some v ->
    v = JNull.
Proof.
  revert m. induction names as [|name names IH]; intros m Hm tagName v; cbn.
  - apply Hm.
  - apply IH. intros t x. destruct (decide (t = name)) as [->|Hne].
    + rewrite lookup_insert_eq. by intros [= <-].
    + rewrite lookup_insert_ne by done. apply Hm.
Qed.

Lemma boot_consistent : consistent (boot registry).
Proof.
  split; [|split].
  - intros tagName v Hget Hv. exfalso. apply Hv.
    unfold get in Hget. cbn in Hget.
    eapply constructor_all_null; [|exact Hget]. intros t x. by rewrite lookup_empty.
  - intros tagName Hin. cbn in Hin. by apply not_elem_of_empty in Hin.
  - done.
Qed.

End Invariant.

Lemma tags_mock_registered (tagName : string) (v : JsValue) :
  mockInitial !! tagName = Some v -> readable tags tagName = true.
Proof.
  intros H. apply elem_of_list_to_map_2 in H.
  repeat (apply elem_of_cons in H as [[= -> ->]|H]; [reflexivity|]).
  by apply not_elem_of_nil in H.
Qed.

Example write_without_read :
  let w := run tags [OpConnect endpoint (server_up "production");
                     OpWriteTag "ARU" (JBool true) StatusGood] (boot tags) in
  get w "ARU" = Some (JBool true) /\
  existsb (read_or_notified "ARU" "ns=4;s=ARU") (effects w) = false.
Proof. vm_compute. split; reflexivity. Qed.

(** C9, as stated, fails: after a write acknowledged good the entry of
    the tag is non-null although no read and no notification for it has
    occurred; the same holds for every tag once the simulator starts. *)
Lemma snapshot_non_null_without_read_or_notification :
  ~ snapshot_invariant_spec tags
      (run tags [OpConnect endpoint (server_up "production");
                 OpWriteTag "ARU" (JBool true) StatusGood] (boot tags)) /\
  ~ snapshot_invariant_spec tags
      (run tags [OpConnect endpoint (server_down "development")] (boot tags)).
Proof.
  split; intros H.
  - destruct (H "ARU" (JBool true)) as (info & Hreg & _ & Hev);
      [vm_compute; reflexivity | discriminate |].
    injection Hreg as <-. vm_compute in Hev. discriminate.
  - destruct (H "niveau" (JNum 65)) as (info & Hreg & _ & Hev);
      [vm_compute; reflexivity | discriminate |].
    injection Hreg as <-. vm_compute in Hev. discriminate.
Qed.

(** C9, amended.  In the shipped process the snapshot starts all null,
    and every operation (connect with or without the simulator,
    disconnect, read, read all, write, attach and detach of listeners,
    change notifications, simulator ticks) keeps this invariant: an entry
    is non-null only for a registered tag whose access includes Read, and
    only after a read of the tag that came back good, a change
    notification for it, a write of it acknowledged good, or the start of
    the simulator. *)
Theorem snapshot_invariant_kept :
  store_consistent tags (boot tags) /\
  (forall op w, store_consistent tags w -> store_consistent tags (step tags op w)) /\
  (forall ops, snapshot_invariant tags (run tags ops (boot tags))).
Proof.
  split; [|split].
  - apply boot_consistent.
  - intros op w. apply step_preserves.
    + apply tags_all_readable.
    + apply tags_mock_registered.
  - intros ops.
    apply (run_preserves tags tags_all_readable tags_mock_registered ops (boot tags)).
    apply boot_consistent.
Qed.

(* ===================================================================== *)
(** * Further properties of the code *)
(* ===================================================================== *)

(** ** Session manager: how connects and disconnects compose *)

Lemma connect_same_endpoint registry (endpointUrl : string) (env : ConnectEnv) (w : World) :
  connected (this w) = true ->
  currentUrl (this w) = endpointUrl ->
  connect registry endpointUrl env w = (Return true, w).
Proof.
  destruct w as [[ses sub items c vals cbs url] ctrls conns ivs tr].
  cbn. intros -> ->. unfold connect. js.
  by rewrite bool_decide_eq_true_2.
Qed.

(** Whenever [connect] answers true, the wrapper is connected to the
    endpoint asked for. *)
Lemma connect_true_connected registry (endpointUrl : string) (env : ConnectEnv) (w : World) :
  result (connect registry endpointUrl env) w = Return true ->
  connected (this (exec (connect registry endpointUrl env) w)) = true /\
  currentUrl (this (exec (connect registry endpointUrl env) w)) = endpointUrl.
Proof.
  unfold connect.
  pose proof (createSubscription_keeps registry env) as Hks.
  pose proof (createSubscription_returns registry env) as Hrs.
  pose proof (disconnect_returns (teardown env)) as Hrd.
  generalize dependent (createSubscription registry env). intros subscribe Hks Hrs.
  generalize dependent (disconnect (teardown env)). intros dis Hrd.
  destruct w as [[ses sub items c vals cbs url] ctrls conns ivs tr].
  unfold race_connect, mockTagValues, set_interval, add_interval. js.
  destruct c; cbn;
    [destruct (bool_decide (url = endpointUrl)) eqn:Hurl; cbn;
     [apply bool_decide_eq_true in Hurl; by intros _ |
      destruct (Hrd (mkWorld (mkWrapper ses sub items true vals cbs url)
                             ctrls conns ivs tr)) as [[] Ha];
      destruct (dis _) as [r [[? ? ? ? ? ? ?] ? ? ? ?]];
      cbn [fst] in Ha; subst r; cbn] |];
    (destruct (transport env) as [|e|]; cbn;
     [destruct (createSession_result env) as [s|e]; cbn;
      [run_sub subscribe Hks Hrs; destruct Hw as (_ & -> & _ & ->); cbn; by intros _ |]
     |..];
     destruct (bool_decide (NODE_ENV env = "development")); cbn;
       intros H; by try discriminate).
Qed.

(** X1.  A second [connect] to the endpoint of a [connect] that answered
    true does nothing at all: it answers true, makes no call and leaves
    the world as it is, whatever the server would do. *)
Theorem connect_twice_is_connect_once
    registry (endpointUrl : string) (env env' : ConnectEnv) (w : World) :
  result (connect registry endpointUrl env) w = Return true ->
  connect registry endpointUrl env' (exec (connect registry endpointUrl env) w)
  = (Return true, exec (connect registry endpointUrl env) w).
Proof.
  intros H. destruct (connect_true_connected registry endpointUrl env w H) as [Hc Hu].
  by apply connect_same_endpoint.
Qed.

Lemma connect_twice_is_connect_once_witness :
  connect tags endpoint (server_down "production")
          (exec (connect tags endpoint (server_up "production")) (boot tags))
  = (Return true, exec (connect tags endpoint (server_up "production")) (boot tags)).
Proof.
  apply connect_twice_is_connect_once. vm_compute. reflexivity.
Defined.

(** ** Subscription engine *)

Lemma lookup_tag_entry (registry : Registry) (name : string) (info : TagInfo) :
  NoDup (keys registry) -> (name, info) ∈ registry ->
  lookup_tag registry name = Some info.
Proof.
  induction registry as [|[k i] rest IH]; intros Hnd Hin; [by apply not_elem_of_nil in Hin|].
  cbn in Hnd. apply NoDup_cons in Hnd as [Hk Hnd]. cbn [lookup_tag].
  apply elem_of_cons in Hin as [[= -> ->]|Hin].
  - by rewrite String.eqb_refl.
  - destruct (String.eqb k name) eqn:E; [|by apply IH].
    apply String.eqb_eq in E as ->. exfalso. apply Hk.
    apply list_elem_of_fmap. by exists (name, info).
Qed.

(** One run of [monitorTag] on a wrapper that holds a subscription and a
    session, for a registered tag. *)
Lemma monitorTag_run registry (tagName : string) (info : TagInfo) (env : ConnectEnv)
      (w : World) :
  is_some (subscription (this w)) = true ->
  is_some (session (this w)) = true ->
  lookup_tag registry tagName = Some info ->
  monitorTag registry tagName env w
  = (Return tt,
     match monitoredItem_result env (nodeId info) with
     | Return _ =>
         with_this (fun o => set_monitoredItems ({[tagName]} ∪ monitoredItems o) o)
                   (add_effect (monitoredItem_create (nodeId info)) w)
     | Throw _ =>
         add_effect (console_error ("Error monitoring tag " +:+ tagName +:+ ":"))
                    (add_effect (monitoredItem_create (nodeId info)) w)
     end).
Proof.
  destruct w as [[ses sub items c vals cbs url] ctrls conns ivs tr].
  cbn. intros Hsub Hses Hreg. unfold monitorTag. js. rewrite Hsub, Hses, Hreg. cbn.
  by destruct (monitoredItem_result env (nodeId info)) as [[]|e].
Qed.

(** The loop of [createSubscription] over a part of the registry. *)
Lemma monitor_loop registry (env : ConnectEnv) (entries : list (string * TagInfo))
      (w : World) :
  is_some (subscription (this w)) = true ->
  is_some (session (this w)) = true ->
  Forall (fun e => lookup_tag registry (fst e) = Some (snd e)) entries ->
  let m := for_each entries
             (fun entry => if includes (access (snd entry)) Read
                           then monitorTag registry (fst entry) env
                           else ret tt) in
  result m w = Return tt /\
  monitoredItems (this (exec m w))
  = monitoredItems (this w)
    ∪ list_to_set (map fst (List.filter (monitorable env) entries)) /\
  effects (exec m w) = effects w ++ flat_map (monitor_trace env) entries /\
  only_subscription w (exec m w) /\
  subscription (this (exec m w)) = subscription (this w).
Proof.
  revert w. induction entries as [|[name info] rest IH]; intros w Hsub Hses Hall; cbv zeta.
  - unfold exec, result. cbn. rewrite app_nil_r.
    repeat split. set_solver.
  - apply Forall_cons in Hall as [Hreg Hall]. cbn [fst snd] in Hreg.
    unfold exec, result in *. cbn [for_each]. rewrite bind_run.
    cbn [List.filter flat_map map]. unfold monitorable at 1, monitor_trace at 1.
    cbn [fst snd].
    destruct (includes (access info) Read) eqn:Hacc; cbn [andb].
    + rewrite (monitorTag_run registry name info env w Hsub Hses Hreg).
      destruct (monitoredItem_result env (nodeId info)) as [[]|e].
      * match goal with |- context [for_each rest ?b ?w1] =>
          destruct (IH w1) as (H1 & H2 & H3 & H4 & H5); [done..|]
        end.
        cbv zeta in *. rewrite H1, H2, H3, H5.
        destruct w as [[] ? ? ? ?]. cbn in *.
        split; [done|]. split; [set_solver|].
        split; [by rewrite <- app_assoc|]. split; [|done].
        destruct H4 as ([? ?] & ? & ? & ?). repeat split; done.
      * match goal with |- context [for_each rest ?b ?w1] =>
          destruct (IH w1) as (H1 & H2 & H3 & H4 & H5); [done..|]
        end.
        cbv zeta in *. rewrite H1, H2, H3, H5.
        destruct w as [[] ? ? ? ?]. cbn in *.
        split; [done|]. split; [done|].
        split; [by rewrite <- !app_assoc|]. split; [|done].
        destruct H4 as ([? ?] & ? & ? & ?). repeat split; done.
    + destruct (IH w) as (H1 & H2 & H3 & H4 & H5); [done..|].
      cbv zeta in *. cbn [ret]. by rewrite H1, H2, H3, H5.
Qed.

Lemma registry_entries_found (registry : Registry) :
  NoDup (keys registry) ->
  Forall (fun e => lookup_tag registry (fst e) = Some (snd e)) registry.
Proof.
  intros Hnd. apply Forall_forall. intros [name info] Hin.
  by apply lookup_tag_entry.
Qed.

(** A connection attempt on a wrapper that is not connected, against a
    server that accepts the transport and the session, up to the call of
    [createSubscription]. *)
Lemma connect_reaches_subscription registry (endpointUrl : string) (env : ConnectEnv)
      (ses : nat) (w : World) :
  connected (this w) = false ->
  transport env = Established ->
  createSession_result env = Return ses ->
  connect registry endpointUrl env w
  = let w1 := with_this (fun o => set_currentUrl endpointUrl
                                    (set_connected true (set_session (Some ses) o)))
                        (add_effect client_createSession
                                    (add_effect (client_connect endpointUrl) w)) in
    (Return true, exec (createSubscription registry env) w1).
Proof.
  pose proof (createSubscription_returns registry env) as Hrs.
  unfold connect.
  generalize dependent (createSubscription registry env). intros subscribe Hrs.
  destruct w as [[s sub items c vals cbs url] ctrls conns ivs tr].
  cbn. intros -> Ht Hs. unfold race_connect. js. rewrite Ht. cbn.
  rewrite Hs. cbn.
  match goal with |- context [subscribe ?w0] =>
    destruct (Hrs w0) as [[] Ha];
    destruct (subscribe w0) as [r w1]; cbn in Ha; subst r
  end.
  reflexivity.
Qed.

(** [createSubscription] when the subscription can be created. *)
Lemma createSubscription_run registry (env : ConnectEnv) (sub : nat) (w : World) :
  NoDup (keys registry) ->
  is_some (session (this w)) = true ->
  connected (this w) = true ->
  subscription_result env = Return sub ->
  let w' := exec (createSubscription registry env) w in
  subscription (this w') = Some sub /\
  monitoredItems (this w')
  = monitoredItems (this w)
    ∪ list_to_set (map fst (List.filter (monitorable env) registry)) /\
  effects w'
  = effects w ++ subscription_create :: flat_map (monitor_trace env) registry /\
  only_subscription w w'.
Proof.
  intros Hnd Hses Hc Hsub. cbv zeta. unfold createSubscription.
  pose proof (fun w1 H1 H2 =>
                monitor_loop registry env registry w1 H1 H2
                             (registry_entries_found registry Hnd)) as Hloop.
  cbv zeta in Hloop.
  generalize dependent (for_each registry
    (fun entry => if includes (access (snd entry)) Read
                  then monitorTag registry (fst entry) env else ret tt)).
  intros loop Hloop.
  destruct w as [[s0 sub0 items c vals cbs url] ctrls conns ivs tr].
  cbn in Hses, Hc. subst c. js. rewrite Hses, Hsub. cbn.
  match goal with |- context [loop ?w1] =>
    destruct (Hloop w1) as (H1 & H2 & H3 & H4 & H5); [done | done |]
  end.
  unfold exec, result in *.
  match goal with |- context [loop ?w1] => destruct (loop w1) as [r w2] end.
  cbn [fst snd] in *. subst r. cbn [fst snd].
  destruct H4 as ([Hv Hi] & Hcon & Hs & Hurl). cbn in *.
  rewrite H2, H3, H5. repeat split; try done. by rewrite <- app_assoc.
Qed.

(** X2.  Monitoring is set up tag by tag.  When a wrapper that is not
    connected connects to a server that accepts transport, session and
    subscription, [connect] answers true and afterwards monitors, besides
    what it monitored before, exactly the readable tags whose monitored
    item could be created; a tag whose item cannot be created is logged
    and skipped without stopping the others.  (Registry keys distinct.) *)
Theorem connect_monitors_what_it_can
    registry (endpointUrl : string) (env : ConnectEnv) (ses sub : nat) (w : World) :
  NoDup (keys registry) ->
  connected (this w) = false ->
  transport env = Established ->
  createSession_result env = Return ses ->
  subscription_result env = Return sub ->
  let w' := exec (connect registry endpointUrl env) w in
  result (connect registry endpointUrl env) w = Return true /\
  session (this w') = Some ses /\
  subscription (this w') = Some sub /\
  connected (this w') = true /\
  currentUrl (this w') = endpointUrl /\
  monitoredItems (this w')
  = monitoredItems (this w)
    ∪ list_to_set (map fst (List.filter (monitorable env) registry)) /\
  effects w'
  = effects w ++ [client_connect endpointUrl; client_createSession; subscription_create]
              ++ flat_map (monitor_trace env) registry.
Proof.
  intros Hnd Hc Ht Hs Hsub. cbv zeta. unfold exec, result.
  rewrite (connect_reaches_subscription registry endpointUrl env ses w Hc Ht Hs).
  cbv zeta. cbn [fst snd]. split; [done|].
  match goal with |- context [exec (createSubscription registry env) ?w1] =>
    destruct (createSubscription_run registry env sub w1 Hnd) as (H1 & H2 & H3 & H4);
      [done | done | done |];
    cbv zeta in *;
    destruct (exec (createSubscription registry env) w1) as [[] ? ? ? ?]
  end.
  destruct H4 as (_ & Hcon & Hses & Hurl).
  destruct w as [[] ? ? ? ?]. cbn in *.
  rewrite H2, H3. repeat split; try done. by rewrite <- !app_assoc.
Qed.

Lemma connect_monitors_what_it_can_witness :
  let env := mkConnectEnv "production" teardown_ok Established (Return 7) (Return 9)
               (fun node => if decide (node = "ns=4;s=niveau")
                            then Throw (Error "BadNodeIdUnknown") else Return tt) in
  let w' := exec (connect tags endpoint env) (boot tags) in
  result (connect tags endpoint env) (boot tags) = Return true /\
  session (this w') = Some 7 /\
  subscription (this w') = Some 9 /\
  connected (this w') = true /\
  currentUrl (this w') = endpoint /\
  monitoredItems (this w')
  = monitoredItems (this (boot tags))
    ∪ list_to_set (map fst (List.filter (monitorable env) tags)) /\
  effects w'
  = effects (boot tags)
    ++ [client_connect endpoint; client_createSession; subscription_create]
    ++ flat_map (monitor_trace env) tags.
Proof.
  intros env.
  apply (connect_monitors_what_it_can tags endpoint env 7 9 (boot tags));
    try reflexivity.
  vm_compute. repeat constructor; set_solver.
Defined.

Lemma createSubscription_fails registry (env : ConnectEnv) (e : JsError) (w : World) :
  is_some (session (this w)) = true ->
  connected (this w) = true ->
  subscription_result env = Throw e ->
  exec (createSubscription registry env) w
  = add_effect (console_error "Error creating subscription:")
               (add_effect subscription_create w).
Proof.
  destruct w as [[s0 sub0 items c vals cbs url] ctrls conns ivs tr].
  cbn. intros Hses -> Hsub. unfold createSubscription. js.
  rewrite Hses, Hsub. reflexivity.
Qed.

(** X3.  Setting up the subscription is best effort for [connect] as a
    whole: when a wrapper that is not connected connects, the transport
    and the session come up but the subscription cannot be created,
    [connect] still answers true and leaves the wrapper connected with
    its new session; no monitored item is added, the subscription field
    and the set of monitored items are left as they were, and the
    failure is only logged. *)
Theorem connect_succeeds_without_subscription
    registry (endpointUrl : string) (env : ConnectEnv) (ses : nat) (e : JsError)
    (w : World) :
  connected (this w) = false ->
  transport env = Established ->
  createSession_result env = Return ses ->
  subscription_result env = Throw e ->
  let w' := exec (connect registry endpointUrl env) w in
  result (connect registry endpointUrl env) w = Return true /\
  session (this w') = Some ses /\
  connected (this w') = true /\
  currentUrl (this w') = endpointUrl /\
  subscription (this w') = subscription (this w) /\
  monitoredItems (this w') = monitoredItems (this w) /\
  effects w'
  = effects w ++ [client_connect endpointUrl; client_createSession; subscription_create;
                  console_error "Error creating subscription:"].
Proof.
  intros Hc Ht Hs Hsub. cbv zeta. unfold exec at 1 2 3 4 5 6, result.
  rewrite (connect_reaches_subscription registry endpointUrl env ses w Hc Ht Hs).
  cbv zeta. cbn [fst snd].
  rewrite (createSubscription_fails registry env e); [|done..].
  destruct w as [[] ? ? ? ?]. cbn. repeat split. by rewrite <- !app_assoc.
Qed.

Lemma connect_succeeds_without_subscription_witness :
  let env := mkConnectEnv "production" teardown_ok Established (Return 7)
               (Throw (Error "BadTooManySubscriptions")) (fun _ => Return tt) in
  let w' := exec (connect tags endpoint env) (boot tags) in
  result (connect tags endpoint env) (boot tags) = Return true /\
  session (this w') = Some 7 /\
  connected (this w') = true /\
  currentUrl (this w') = endpoint /\
  subscription (this w') = subscription (this (boot tags)) /\
  monitoredItems (this w') = monitoredItems (this (boot tags)) /\
  effects w'
  = effects (boot tags)
    ++ [client_connect endpoint; client_createSession; subscription_create;
        console_error "Error creating subscription:"].
Proof.
  intros env.
  apply (connect_succeeds_without_subscription tags endpoint env 7
           (Error "BadTooManySubscriptions") (boot tags)); reflexivity.
Defined.

(** X4.  Switching endpoints gives up the old connection first, and a
    switch that fails does not bring it back: on a wrapper connected to
    one endpoint, when the three calls of the teardown (terminating the
    subscription, closing the session, disconnecting the transport) all
    succeed, a [connect] to another endpoint that fails outside
    development answers false and leaves the wrapper disconnected,
    without session or subscription, its recorded url still the old one
    and its snapshot as it was. *)
Theorem failed_switch_loses_the_connection
    registry (endpointUrl : string) (env : ConnectEnv) (w : World) :
  connected (this w) = true ->
  currentUrl (this w) <> endpointUrl ->
  terminate_result (teardown env) = Return tt ->
  close_result (teardown env) = Return tt ->
  disconnect_result (teardown env) = Return tt ->
  attempt_fails env = true ->
  NODE_ENV env <> "development" ->
  let w' := exec (connect registry endpointUrl env) w in
  result (connect registry endpointUrl env) w = Return false /\
  connected (this w') = false /\
  session (this w') = None /\
  subscription (this w') = None /\
  currentUrl (this w') = currentUrl (this w) /\
  tagValues (this w') = tagValues (this w).
Proof.
  intros Hc Hurl Ht Hcl Hd Hfail Hdev. cbv zeta. unfold connect.
  pose proof (createSubscription_returns registry env) as Hrs.
  generalize dependent (createSubscription registry env). intros subscribe Hrs.
  destruct w as [[ses sub items c vals cbs url] ctrls conns ivs tr].
  cbn in Hc, Hurl. subst c.
  unfold attempt_fails in Hfail. unfold disconnect, race_connect. js.
  rewrite (bool_decide_eq_false_2 _ Hurl), (bool_decide_eq_false_2 _ Hdev).
  rewrite Ht, Hcl, Hd. cbn.
  destruct sub, ses; cbn;
    (destruct (transport env) as [|e|]; cbn;
     [destruct (createSession_result env) as [s|e]; [discriminate|]; cbn |..];
     repeat split).
Qed.

Lemma failed_switch_loses_the_connection_witness :
  let w' := exec (connect tags "opc.tcp://other:4840" (server_down "production")) online in
  result (connect tags "opc.tcp://other:4840" (server_down "production")) online
  = Return false /\
  connected (this w') = false /\
  session (this w') = None /\
  subscription (this w') = None /\
  currentUrl (this w') = currentUrl (this online) /\
  tagValues (this w') = tagValues (this online).
Proof.
  apply (failed_switch_loses_the_connection tags "opc.tcp://other:4840"
           (server_down "production") online);
    try reflexivity; vm_compute; discriminate.
Defined.

(** When the teardown itself fails, the failed switch leaves the wrapper
    connected to the old endpoint. *)
Example failed_switch_after_failed_teardown :
  let env := mkConnectEnv "production"
               (mkTeardown (Throw (Error "BadSubscriptionIdInvalid")) (Return tt) (Return tt))
               (Refused (Error "ECONNREFUSED")) (Return 1%nat) (Return 1%nat)
               (fun _ => Return tt) in
  let w' := exec (connect tags "opc.tcp://other:4840" env) online in
  result (connect tags "opc.tcp://other:4840" env) online = Return false /\
  connected (this w') = true /\
  is_some (session (this w')) = true /\
  currentUrl (this w') = endpoint.
Proof. vm_compute. repeat split. Qed.

(** ** Degraded mode *)

Lemma connect_fallback_state registry (endpointUrl : string) (env : ConnectEnv) (w : World) :
  session (this w) = None ->
  attempts w endpointUrl = true ->
  attempt_fails env = true ->
  NODE_ENV env = "development" ->
  let w' := exec (connect registry endpointUrl env) w in
  session (this w') = None /\
  connected (this w') = true /\
  tagValues (this w') = mockInitial.
Proof.
  intros Hs Hatt Hfail Hdev. cbv zeta. unfold connect.
  pose proof (createSubscription_returns registry env) as Hrs.
  generalize dependent (createSubscription registry env). intros subscribe Hrs.
  destruct w as [[ses sub items c vals cbs url] ctrls conns ivs tr].
  cbn in Hs. subst ses.
  unfold attempts, attempt_fails in *. cbn in Hatt.
  destruct (teardown env) as [rt rc rd].
  unfold disconnect, race_connect, mockTagValues, set_interval, add_interval. js.
  rewrite (bool_decide_eq_true_2 _ Hdev).
  destruct c; cbn in *;
    [destruct (bool_decide (url = endpointUrl)); [discriminate|]; cbn;
     destruct sub, rt as [[]|], rd as [[]|]; cbn |];
    (destruct (transport env) as [|?|]; cbn;
     [destruct (createSession_result env) as [?|?]; [discriminate|]; cbn |..];
     repeat split).
Qed.

(** X5.  In degraded mode the wrapper says it is connected but serves no
    request.  After a fallback to the simulator on a wrapper that held no
    session, [isConnected] answers true, yet every [writeTag] answers
    false, every [readTag] answers null and [readAllTags] hands back the
    simulated snapshot, each after logging that there is no connection
    and without changing anything else. *)
Theorem degraded_mode_serves_no_request
    registry (endpointUrl : string) (env : ConnectEnv) (w : World) :
  session (this w) = None ->
  attempts w endpointUrl = true ->
  attempt_fails env = true ->
  NODE_ENV env = "development" ->
  let w' := exec (connect registry endpointUrl env) w in
  let refused := add_effect (console_error "Not connected to OPC-UA server") w' in
  result isConnected w' = Return true /\
  (forall tagName value wr,
     writeTag registry tagName value wr w' = (Return false, refused)) /\
  (forall tagName rd,
     readTag registry tagName rd w' = (Return JNull, refused)) /\
  (forall reads,
     readAllTags registry reads w' = (Return mockInitial, refused)).
Proof.
  intros Hs Hatt Hfail Hdev.
  destruct (connect_fallback_state registry endpointUrl env w Hs Hatt Hfail Hdev)
    as (H1 & H2 & H3).
  cbv zeta in *.
  destruct (exec (connect registry endpointUrl env) w)
    as [[ses sub items c vals cbs url] ctrls conns ivs tr].
  cbn in H1, H2, H3. subst ses c vals.
  unfold isConnected, writeTag, readTag, readAllTags. js.
  repeat split.
Qed.

Lemma degraded_mode_serves_no_request_witness :
  let w' := exec (connect tags endpoint (server_down "development")) (boot tags) in
  let refused := add_effect (console_error "Not connected to OPC-UA server") w' in
  result isConnected w' = Return true /\
  (forall tagName value wr,
     writeTag tags tagName value wr w' = (Return false, refused)) /\
  (forall tagName rd,
     readTag tags tagName rd w' = (Return JNull, refused)) /\
  (forall reads,
     readAllTags tags reads w' = (Return mockInitial, refused)).
Proof.
  apply (degraded_mode_serves_no_request tags endpoint (server_down "development")
           (boot tags)); reflexivity.
Defined.

(** ** A relation kept by every primitive step is kept by every run *)

Section Respects.

Context (R : World -> World -> Prop) `{!Reflexive R} `{!Transitive R}.
Variable registry : Registry.

Hypothesis R_effect : forall e w, R w (add_effect e w).
Hypothesis R_session : forall s w, R w (with_this (set_session s) w).
Hypothesis R_subscription : forall s w, R w (with_this (set_subscription s) w).
Hypothesis R_connected : forall b w, R w (with_this (set_connected b) w).
Hypothesis R_currentUrl : forall u w, R w (with_this (set_currentUrl u) w).
Hypothesis R_store :
  forall tagName v w,
    R w (with_this (fun o => set_tagValues (<[tagName := v]> (tagValues o)) o) w).
Hypothesis R_mock : forall w, R w (with_this (set_tagValues mockInitial) w).
Hypothesis R_monitor :
  forall tagName w,
    R w (with_this (fun o => set_monitoredItems ({[tagName]} ∪ monitoredItems o) o) w).
Hypothesis R_interval : forall job w, R w (add_interval job w).

Lemma respects_set_interval job ms : keeps R (set_interval job ms).
Proof.
  intros w. unfold set_interval. cbn.
  etransitivity; [apply R_effect | apply R_interval].
Qed.

Ltac wrapper_leaf :=
  first
    [ apply respects_set_interval
    | intros ?w;
      first [ apply R_effect | apply R_session | apply R_subscription
            | apply R_connected | apply R_currentUrl | apply R_store
            | apply R_mock | apply R_monitor ] ].

Ltac wrapper_frame :=
  frame ltac:(first [ wrapper_leaf
                    | progress (unfold connect, disconnect, createSubscription,
                                monitorTag, race_connect, mockTagValues, writeTag,
                                readTag, store);
                      wrapper_frame ]).

Lemma respects_connect url env : keeps R (connect registry url env).
Proof. wrapper_frame. Qed.

Lemma respects_disconnect env : keeps R (disconnect env).
Proof. wrapper_frame. Qed.

Lemma respects_writeTag tagName value wr : keeps R (writeTag registry tagName value wr).
Proof. wrapper_frame. Qed.

Lemma respects_readTag tagName rd : keeps R (readTag registry tagName rd).
Proof. wrapper_frame. Qed.

Lemma respects_read_each names reads : keeps R (read_each registry names reads).
Proof.
  induction names as [|tagName names IH]; cbn [read_each].
  - apply keeps_ret; apply _.
  - frame ltac:(first [apply respects_readTag | exact IH]).
Qed.

Lemma respects_readAllTags reads : keeps R (readAllTags registry reads).
Proof.
  unfold readAllTags.
  frame ltac:(first [ apply respects_read_each | wrapper_leaf
                    | progress unfold store; wrapper_frame ]).
Qed.

(** The calls of the wrapper that are not notifications. *)
Lemma respects_silent (op : Op) (w : World) :
  silent op = true -> R w (step registry op w).
Proof.
  destruct op; try discriminate; intros _; cbn [step].
  - apply respects_connect.
  - apply respects_disconnect.
  - apply respects_readTag.
  - apply respects_readAllTags.
  - apply respects_writeTag.
Qed.

Hypothesis R_notify : forall tagName v, keeps R (notify tagName v).
Hypothesis R_start : forall id, keeps R (start id).
Hypothesis R_close : forall k, keeps R (close_controller k).
Hypothesis R_delete : forall conn, keeps R (delete_connection conn).
Hypothesis R_unsubscribe : forall cb, keeps R (unsubscribe cb).

Ltac route_leaf :=
  first
    [ apply R_notify | apply R_start | apply R_close | apply R_delete
    | apply R_unsubscribe | apply respects_connect | apply respects_readAllTags
    | wrapper_leaf
    | intros ?w; reflexivity ].

Ltac route_frame :=
  frame ltac:(first [ route_leaf
                    | progress (unfold GET, isConnected, getConnectionUrl, on_abort,
                                on_cancel, get_connections, on_changed,
                                simulate_niveau, simulate_toggle, store);
                      route_frame ]).

Lemma respects_step (op : Op) (w : World) : R w (step registry op w).
Proof.
  destruct (silent op) eqn:Hs; [by apply respects_silent|].
  destruct op; try discriminate; cbn [step]; unfold exec;
    repeat match goal with
           | |- context [match ?x with _ => _ end] => destruct x
           end;
    try reflexivity;
    match goal with
    | |- R ?w (snd (?m ?w)) => revert w; change (keeps R m)
    end;
    route_frame.
Qed.

Lemma respects_run (ops : list Op) (w : World) : R w (run registry ops w).
Proof.
  revert w. induction ops as [|op ops IH]; intros w; cbn.
  - reflexivity.
  - etransitivity; [apply respects_step | apply IH].
Qed.

End Respects.

(** ** What no operation ever does *)

#[local] Instance never_forgets_refl : Reflexive never_forgets.
Proof. intros w. split; [exists []; by rewrite app_nil_r | done]. Qed.

#[local] Instance never_forgets_trans : Transitive never_forgets.
Proof.
  intros a b c [[m1 H1] H2] [[m2 H3] H4]. split.
  - exists (m1 ++ m2). by rewrite H3, H1, app_assoc.
  - by etransitivity.
Qed.

Lemma never_forgets_same (w w' : World) :
  intervals w' = intervals w ->
  monitoredItems (this w') = monitoredItems (this w) ->
  never_forgets w w'.
Proof.
  intros H1 H2. split; [exists []; by rewrite H1, app_nil_r | by rewrite H2].
Qed.

Lemma enqueue_never_forgets k chunk : keeps never_forgets (enqueue k chunk).
Proof.
  intros w. unfold enqueue.
  destruct (controllers w !! k) as [c|]; [destruct (open c)|];
    by apply never_forgets_same.
Qed.

Lemma notify_never_forgets tagName v : keeps never_forgets (notify tagName v).
Proof.
  unfold notify.
  frame ltac:(first [ apply enqueue_never_forgets
                    | intros ?w; by apply never_forgets_same
                    | progress unfold update_callback;
                      frame ltac:(first [ apply enqueue_never_forgets
                                        | intros ?w; by apply never_forgets_same ]) ]).
Qed.

Lemma start_never_forgets id : keeps never_forgets (start id).
Proof.
  intros w. rewrite start_run. apply never_forgets_same; [done|]. by destruct w as [[]].
Qed.

Lemma close_never_forgets k : keeps never_forgets (close_controller k).
Proof.
  intros w. unfold close_controller.
  destruct (controllers w !! k); by apply never_forgets_same.
Qed.

(** X6.  Nothing is ever stopped or forgotten.  Under any sequence of
    operations, disconnects included, every interval of the simulator
    that was running is still running, in the same place, and every tag
    that was monitored is still in [monitoredItems]. *)
Theorem intervals_and_items_only_grow (registry : Registry) (ops : list Op) (w : World) :
  (exists more, intervals (run registry ops w) = intervals w ++ more) /\
  monitoredItems (this w) ⊆ monitoredItems (this (run registry ops w)).
Proof.
  apply (respects_run never_forgets registry); intros;
    try (by apply never_forgets_same);
    try (intros ?w; by apply never_forgets_same).
  - split; [exists []; by rewrite app_nil_r | cbn; set_solver].
  - split; [by exists [job] | done].
  - apply notify_never_forgets.
  - apply start_never_forgets.
  - apply close_never_forgets.
Qed.

Example simulator_survives_disconnect :
  intervals (run tags [OpConnect endpoint (server_down "development");
                       OpDisconnect teardown_ok] (boot tags))
  = [SimulateNiveau; SimulateToggle] /\
  connected (this (run tags [OpConnect endpoint (server_down "development");
                             OpDisconnect teardown_ok] (boot tags))) = false.
Proof. vm_compute. split; reflexivity. Qed.

#[local] Instance no_delivery_refl : Reflexive no_delivery.
Proof. intros w. by split. Qed.

#[local] Instance no_delivery_trans : Transitive no_delivery.
Proof. intros a b c [H1 H2] [H3 H4]. split; congruence. Qed.

Lemma silent_no_delivery (registry : Registry) (op : Op) (w : World) :
  silent op = true -> no_delivery w (step registry op w).
Proof.
  intros Hs.
  apply (respects_silent no_delivery registry); try done;
    intros; split; by try destruct w0 as [[]].
Qed.

(** X7.  The wrapper's own calls are never broadcast.  [connect],
    [disconnect], [readTag], [readAllTags] and [writeTag] enqueue nothing
    on any stream and register or remove no callback; in particular a
    write acknowledged good changes the snapshot but reaches no
    listener. *)
Theorem wrapper_calls_reach_no_listener (registry : Registry) (op : Op) (w : World) :
  silent op = true ->
  controllers (step registry op w) = controllers w /\
  onUpdateCallbacks (this (step registry op w)) = onUpdateCallbacks (this w).
Proof. apply silent_no_delivery. Qed.

Lemma wrapper_calls_reach_no_listener_witness :
  let w := exec (start "c1") online in
  let w' := step tags (OpWriteTag "ARU" (JBool true) StatusGood) w in
  (controllers w' = controllers w /\
   onUpdateCallbacks (this w') = onUpdateCallbacks (this w)) /\
  get w' "ARU" = Some (JBool true) /\
  get w "ARU" = Some JNull.
Proof.
  split.
  - apply (wrapper_calls_reach_no_listener tags
             (OpWriteTag "ARU" (JBool true) StatusGood) (exec (start "c1") online)).
    reflexivity.
  - vm_compute. split; reflexivity.
Defined.

(** ** Reading every tag *)

(** One read of a readable, registered tag on a connected session. *)
Lemma readTag_connected_run registry (tagName : string) (info : TagInfo)
      (rd : ReadOutcome) (w : World) :
  has_session w = true ->
  lookup_tag registry tagName = Some info ->
  includes (access info) Read = true ->
  result (readTag registry tagName rd) w = Return (value_read rd) /\
  has_session (exec (readTag registry tagName rd) w) = true /\
  (forall other, other <> tagName ->
                 get (exec (readTag registry tagName rd) w) other = get w other).
Proof.
  destruct w as [[ses sub items c vals cbs url] ctrls conns ivs tr].
  unfold readTag. js. intros Hs Hreg Hacc. rewrite Hreg.
  destruct ses as [ses|], c; try discriminate. cbn. rewrite Hacc. cbn.
  destruct rd as [v| |e]; cbn; repeat split; try done.
  intros other Hne. by apply lookup_insert_ne.
Qed.

Lemma read_each_run registry (names : list string) (reads : string -> ReadOutcome)
      (w : World) :
  has_session w = true ->
  Forall (fun tagName => readable registry tagName = true) names ->
  result (read_each registry names reads) w
  = Return (map (fun tagName => (tagName, value_read (reads tagName))) names) /\
  has_session (exec (read_each registry names reads) w) = true /\
  (forall other, other ∉ names ->
                 get (exec (read_each registry names reads) w) other = get w other).
Proof.
  revert w. induction names as [|tagName names IH]; intros w Hs Hall.
  - unfold exec, result. cbn. by repeat split.
  - apply Forall_cons in Hall as [Hr Hall].
    destruct (readable_registered registry tagName Hr) as (info & Hreg & Hacc).
    destruct (readTag_connected_run registry tagName info (reads tagName) w Hs Hreg Hacc)
      as (H1 & H2 & H3).
    unfold exec, result in *. cbn [read_each]. rewrite bind_run.
    destruct (readTag registry tagName (reads tagName) w) as [r w1].
    cbn [fst snd] in *. subst r.
    destruct (IH w1 H2 Hall) as (H4 & H5 & H6).
    rewrite bind_run.
    destruct (read_each registry names reads w1) as [r w2].
    cbn [fst snd] in *. subst r. cbn [ret fst snd map].
    repeat split; try done.
    intros other Hnot. apply not_elem_of_cons in Hnot as [Hne Hnot].
    rewrite H6 by done. by apply H3.
Qed.

(** The final pass of [readAllTags] over the results. *)
Lemma store_each_run (f : string -> JsValue) (names : list string) (w : World) :
  let m := for_each (map (fun tagName => (tagName, f tagName)) names)
                    (fun r => store (fst r) (snd r)) in
  result m w = Return tt /\
  effects (exec m w) = effects w /\
  forall tagName,
    get (exec m w) tagName
    = if bool_decide (tagName ∈ names) then Some (f tagName) else get w tagName.
Proof.
  revert w. induction names as [|name names IH]; intros w; cbv zeta.
  - unfold exec, result. cbn. repeat split.
  - cbn [map for_each]. unfold exec, result. rewrite bind_run.
    change (store (name, f name).1 (name, f name).2 w)
      with (Return tt, exec (store name (f name)) w).
    cbv iota beta.
    destruct (IH (exec (store name (f name)) w)) as (H1 & H2 & H3).
    cbv zeta in *. unfold exec, result in *. split; [done|]. split; [by rewrite H2|].
    intros tagName. rewrite H3.
    destruct (bool_decide (tagName ∈ names)) eqn:Hin.
    + apply bool_decide_eq_true in Hin.
      rewrite bool_decide_eq_true_2; [done | by right].
    + apply bool_decide_eq_false in Hin.
      destruct (decide (tagName = name)) as [->|Hne].
      * rewrite bool_decide_eq_true_2 by left. unfold_js. cbn.
        apply lookup_insert_eq.
      * rewrite bool_decide_eq_false_2
          by (intros [?|?]%elem_of_cons; done).
        unfold_js. cbn. by apply lookup_insert_ne.
Qed.

(** X8.  [readAllTags] on a connected session rewrites the entry of
    every readable tag: it becomes the value just read when the read came
    back good, and null otherwise, even if the entry held a value before.
    The entries of the other names are left alone and the snapshot
    handed back is the one stored. *)
Theorem readAllTags_rewrites_readable_entries
    registry (reads : string -> ReadOutcome) (w : World) :
  has_session w = true ->
  let w' := exec (readAllTags registry reads) w in
  result (readAllTags registry reads) w = Return (tagValues (this w')) /\
  forall tagName,
    get w' tagName
    = if bool_decide (tagName ∈ readable_keys registry)
      then Some (value_read (reads tagName))
      else get w tagName.
Proof.
  intros Hs. cbv zeta.
  assert (Hall : Forall (fun tagName => readable registry tagName = true)
                        (readable_keys registry)).
  { apply Forall_forall. intros x Hx. unfold readable_keys in Hx.
    apply list_elem_of_In, filter_In in Hx. tauto. }
  destruct (read_each_run registry (readable_keys registry) reads w Hs Hall)
    as (H1 & H2 & H3).
  unfold exec, result in *.
  remember (readAllTags registry reads w) as out eqn:E.
  unfold readAllTags in E.
  rewrite bind_run in E. unfold gets at 1 in E. cbv iota beta in E.
  rewrite bind_run in E. unfold gets at 1 in E. cbv iota beta in E.
  unfold has_session in Hs. apply andb_true_iff in Hs as [Hs1 Hs2].
  rewrite Hs1, Hs2 in E. cbn [negb orb] in E. rewrite bind_run in E.
  destruct (read_each registry (readable_keys registry) reads w) as [r w1].
  cbn [fst snd] in *. subst r. rewrite bind_run in E.
  destruct (store_each_run (fun t => value_read (reads t)) (readable_keys registry) w1)
    as (H4 & _ & H6).
  cbv zeta in *. unfold exec, result in *.
  destruct (for_each _ _ w1) as [r w2]. cbn [fst snd] in *. subst r.
  cbn [gets fst snd] in E. subst out. cbn [fst snd]. split; [done|].
  intros tagName. rewrite H6.
  destruct (bool_decide (tagName ∈ readable_keys registry)) eqn:Hin; [done|].
  apply bool_decide_eq_false in Hin. by apply H3.
Qed.

Lemma readAllTags_rewrites_readable_entries_witness :
  let reads := fun t => if decide (t = "niveau") then DataGood (JNum 42) else DataBad in
  let w := exec (on_changed "ARU" (JBool true)) online in
  let w' := exec (readAllTags tags reads) w in
  result (readAllTags tags reads) w = Return (tagValues (this w')) /\
  (forall tagName,
     get w' tagName
     = if bool_decide (tagName ∈ readable_keys tags)
       then Some (value_read (reads tagName))
       else get w tagName) /\
  get w "ARU" = Some (JBool true) /\
  get w' "ARU" = Some JNull.
Proof.
  intros reads w w'.
  destruct (readAllTags_rewrites_readable_entries tags reads w) as [H1 H2];
    [vm_compute; reflexivity|].
  split; [exact H1|]. split; [exact H2|]. vm_compute. split; reflexivity.
Defined.

(** ** Distribution channel: fan-out, detach, cancel *)

Lemma is_open_stream_insert (w : World) (k j : nat) (c : Controller) (q : list Chunk) :
  controllers w !! k = Some c ->
  open c = true ->
  let w' := set_controllers (<[k := mkController (connectionId c) q true]> (controllers w)) w in
  is_open w' j = is_open w j /\
  stream w' j = (if Nat.eqb k j then q else stream w j) /\
  length (controllers w') = length (controllers w).
Proof.
  intros Hc Ho. cbv zeta. unfold is_open, stream, set_controllers. cbn [controllers].
  rewrite length_insert. split; [|split; [|done]].
  - destruct (decide (k = j)) as [->|Hne].
    + rewrite list_lookup_insert_eq by (by eapply lookup_lt_Some). by rewrite Hc.
    + by rewrite list_lookup_insert_ne.
  - destruct (Nat.eqb_spec k j) as [->|Hne].
    + by rewrite list_lookup_insert_eq by (by eapply lookup_lt_Some).
    + by rewrite list_lookup_insert_ne.
Qed.

(** One callback, one delivery attempt. *)
Lemma update_callback_run (cb : nat * string) (tagName : string) (v : JsValue) (w : World) :
  let w' := exec (update_callback cb tagName v) w in
  result (update_callback cb tagName v) w = Return tt /\
  this w' = this w /\
  length (controllers w') = length (controllers w) /\
  (forall k, is_open w' k = is_open w k) /\
  (forall k, stream w' k
             = stream w k ++ (if is_open w k && Nat.eqb (fst cb) k
                              then [TagData tagName v] else [])) /\
  effects w' = effects w ++ (if is_open w (fst cb) then [] else [delivery_error cb]).
Proof.
  cbv zeta.
  assert (Hopen : is_open w cb.1 = match controllers w !! cb.1 with
                                   | Some c => open c
                                   | None => false
                                   end) by reflexivity.
  unfold update_callback, exec, result, try_catch, enqueue.
  destruct (controllers w !! cb.1) as [c|] eqn:Hc.
  - destruct (open c) eqn:Ho.
    + cbn [fst snd].
      pose proof (fun j => is_open_stream_insert w cb.1 j c
                             (queue c ++ [TagData tagName v]) Hc Ho) as H.
      cbv zeta in H. split; [done|]. split; [done|].
      split; [apply (H 0)|]. split; [intros k; apply (H k)|].
      split; [|rewrite Hopen; cbn; by rewrite app_nil_r].
      intros k. destruct (H k) as (H1 & H2 & _). rewrite H2.
      destruct (Nat.eqb_spec cb.1 k) as [<-|Hne].
      * unfold stream. rewrite Hopen, Hc. done.
      * by rewrite andb_false_r, app_nil_r.
    + cbn. rewrite Hopen. repeat split; try done.
      intros k. destruct (Nat.eqb_spec cb.1 k) as [<-|Hne].
      * rewrite Hopen. cbn. by rewrite app_nil_r.
      * by rewrite andb_false_r, app_nil_r.
  - cbn. rewrite Hopen. repeat split; try done.
    intros k. destruct (Nat.eqb_spec cb.1 k) as [<-|Hne].
    + rewrite Hopen. cbn. by rewrite app_nil_r.
    + by rewrite andb_false_r, app_nil_r.
Qed.

Lemma deliveries_cons (k : nat) (cb : nat * string) (cbs : list (nat * string)) :
  deliveries k (cb :: cbs) = (if Nat.eqb (fst cb) k then 1 else 0) + deliveries k cbs.
Proof. unfold deliveries. cbn. by destruct (Nat.eqb cb.1 k). Qed.

(** The loop of [notify] over any list of callbacks. *)
Lemma deliver_loop (cbs : list (nat * string)) (tagName : string) (v : JsValue)
      (w : World) :
  let m := for_each cbs (fun cb => update_callback cb tagName v) in
  result m w = Return tt /\
  this (exec m w) = this w /\
  length (controllers (exec m w)) = length (controllers w) /\
  (forall k, is_open (exec m w) k = is_open w k) /\
  (forall k, stream (exec m w) k
             = stream w k ++ (if is_open w k
                              then replicate (deliveries k cbs) (TagData tagName v)
                              else [])) /\
  effects (exec m w)
  = effects w ++ map delivery_error
                     (List.filter (fun cb => negb (is_open w (fst cb))) cbs).
Proof.
  revert w. induction cbs as [|cb cbs IH]; intros w; cbv zeta.
  - unfold exec, result. cbn. rewrite app_nil_r. repeat split.
    intros k. destruct (is_open w k); by rewrite app_nil_r.
  - destruct (update_callback_run cb tagName v w) as (H1 & H2 & H3 & H4 & H5 & H6).
    cbv zeta in *. unfold exec, result in *. cbn [for_each]. rewrite bind_run.
    destruct (update_callback cb tagName v w) as [r w1]. cbn [fst snd] in *. subst r.
    destruct (IH w1) as (G1 & G2 & G3 & G4 & G5 & G6).
    cbv zeta in *. unfold exec, result in *.
    destruct (for_each cbs _ w1) as [r w2]. cbn [fst snd] in *. subst r.
    split; [done|]. split; [congruence|]. split; [congruence|].
    split; [intros k; by rewrite G4|]. split.
    + intros k. rewrite G5, H5, H4, deliveries_cons, <- app_assoc. f_equal.
      destruct (is_open w k), (Nat.eqb cb.1 k); cbn; done.
    + rewrite G6, H6. cbn [List.filter map]. rewrite <- app_assoc. f_equal.
      rewrite (List.filter_ext _ (fun cb0 => negb (is_open w cb0.1)))
        by (intros ?; by rewrite H4).
      by destruct (is_open w cb.1).
Qed.

(** What one run of [notify] does. *)
Lemma notify_run (tagName : string) (v : JsValue) (w : World) :
  let w' := exec (notify tagName v) w in
  let cbs := onUpdateCallbacks (this w) in
  result (notify tagName v) w = Return tt /\
  this w' = this w /\
  length (controllers w') = length (controllers w) /\
  (forall k, is_open w' k = is_open w k) /\
  (forall k, stream w' k
             = stream w k ++ (if is_open w k
                              then replicate (deliveries k cbs) (TagData tagName v)
                              else [])) /\
  effects w'
  = effects w ++ map delivery_error
                     (List.filter (fun cb => negb (is_open w (fst cb))) cbs).
Proof.
  cbv zeta. unfold notify, exec, result. rewrite bind_run. unfold gets at 1.
  cbv iota beta.
  apply (deliver_loop (onUpdateCallbacks (this w)) tagName v w).
Qed.

(** X9.  One notification reaches every listener that is attached and
    open, once per registration of its callback and in nobody else's
    stream; a listener whose stream is closed or gone costs one logged
    error and changes nothing for the others; the wrapper itself is not
    touched. *)
Theorem notify_fans_out (tagName : string) (v : JsValue) (w : World) :
  let w' := exec (notify tagName v) w in
  let cbs := onUpdateCallbacks (this w) in
  result (notify tagName v) w = Return tt /\
  this w' = this w /\
  (forall k, is_open w' k = is_open w k) /\
  (forall k, stream w' k
             = stream w k ++ (if is_open w k
                              then replicate (deliveries k cbs) (TagData tagName v)
                              else [])) /\
  effects w'
  = effects w ++ map delivery_error
                     (List.filter (fun cb => negb (is_open w (fst cb))) cbs).
Proof.
  destruct (notify_run tagName v w) as (H1 & H2 & _ & H4 & H5 & H6).
  by repeat split.
Qed.

Example two_listeners_one_closed :
  let w := run tags [OpAttach "c1"; OpAttach "c2"; OpCancel 0] online in
  let w' := exec (notify "niveau" (JNum 7)) w in
  stream w' 0 = stream w 0 /\
  stream w' 1 = stream w 1 ++ [TagData "niveau" (JNum 7)] /\
  effects w' = effects w ++ [console_error "Error sending update to client c1:"].
Proof. vm_compute. repeat split. Qed.

Lemma filter_twice {A} (P : A -> Prop) `{!forall x, Decision (P x)} (l : list A) :
  filter P (filter P l) = filter P l.
Proof.
  induction l as [|x l IH]; [done|].
  rewrite filter_cons. destruct (decide (P x)) as [HP|HP]; [|done].
  rewrite filter_cons. destruct (decide (P x)); [|done]. by rewrite IH.
Qed.

(** The loop of the abort listener over any list of connections. *)
Lemma abort_loop (k : nat) (id : string) (conns : list (nat * string)) (w : World) :
  let m := for_each conns
             (fun conn => if bool_decide (snd conn = id)
                          then delete_connection conn ;; unsubscribe (k, id)
                          else ret tt) in
  controllers (exec m w) = controllers w /\
  effects (exec m w) = effects w /\
  onUpdateCallbacks (this (exec m w))
  = if existsb (fun conn => bool_decide (snd conn = id)) conns
    then filter (fun cb => cb <> (k, id)) (onUpdateCallbacks (this w))
    else onUpdateCallbacks (this w).
Proof.
  revert w. induction conns as [|conn conns IH]; intros w; cbv zeta; [done|].
  unfold exec. cbn [for_each existsb]. rewrite bind_run.
  destruct (bool_decide (conn.2 = id)).
  - change ((delete_connection conn ;; unsubscribe (k, id)) w)
      with (Return tt, exec (unsubscribe (k, id)) (exec (delete_connection conn) w)).
    cbv iota beta.
    destruct (IH (exec (unsubscribe (k, id)) (exec (delete_connection conn) w)))
      as (H1 & H2 & H3).
    cbv zeta in *. unfold exec in *. rewrite H1, H2, H3. cbn [orb].
    split; [done|]. split; [done|].
    destruct w as [[] ? ? ? ?]. cbn.
    destruct (existsb _ conns); [apply filter_twice | done].
  - cbn [ret orb]. apply (IH w).
Qed.

Lemma on_abort_run (k : nat) (id : string) (w : World) :
  controllers (exec (on_abort k id) w) = controllers w /\
  effects (exec (on_abort k id) w) = effects w /\
  onUpdateCallbacks (this (exec (on_abort k id) w))
  = if existsb (fun conn => bool_decide (snd conn = id)) (activeConnections w)
    then filter (fun cb => cb <> (k, id)) (onUpdateCallbacks (this w))
    else onUpdateCallbacks (this w).
Proof.
  unfold on_abort, exec. rewrite bind_run. unfold get_connections at 1.
  cbv iota beta. apply (abort_loop k id (activeConnections w) w).
Qed.

Lemma deliveries_unsubscribe_other (m k : nat) (id : string) (cbs : list (nat * string)) :
  m <> k ->
  deliveries m (filter (fun cb => cb <> (k, id)) cbs) = deliveries m cbs.
Proof.
  intros Hne. induction cbs as [|cb cbs IH]; [done|].
  rewrite filter_cons. destruct (decide (cb <> (k, id))) as [H|H].
  - by rewrite !deliveries_cons, IH.
  - rewrite deliveries_cons, IH. apply dec_stable in H. subst cb. cbn.
    destruct (Nat.eqb_spec k m); [congruence | done].
Qed.

Lemma deliveries_unsubscribe_own (k : nat) (id : string) (cbs : list (nat * string)) :
  (forall cb, cb ∈ cbs -> fst cb = k -> cb = (k, id)) ->
  deliveries k (filter (fun cb => cb <> (k, id)) cbs) = 0.
Proof.
  induction cbs as [|cb cbs IH]; intros Hown; [done|].
  rewrite filter_cons. destruct (decide (cb <> (k, id))) as [H|H].
  - rewrite deliveries_cons, IH by (intros; apply Hown; [by right | done]).
    destruct (Nat.eqb_spec cb.1 k) as [E|E]; [|done].
    exfalso. apply H, Hown; [left | done].
  - apply IH. intros; apply Hown; [by right | done].
Qed.

Lemma deliveries_filter_le (k : nat) (P : nat * string -> Prop)
      `{!forall x, Decision (P x)} (cbs : list (nat * string)) :
  deliveries k (filter P cbs) <= deliveries k cbs.
Proof.
  induction cbs as [|cb cbs IH]; [done|].
  rewrite filter_cons. destruct (decide (P cb)); rewrite !deliveries_cons; lia.
Qed.

(** X10.  Detaching one listener never costs another one a delivery: a
    notification published after the abort of listener [k] puts into the
    stream of any other listener exactly what it would have put there
    without the abort. *)
Theorem abort_leaves_other_listeners
    (k m : nat) (id tagName : string) (v : JsValue) (w : World) :
  m <> k ->
  stream (exec (notify tagName v) (exec (on_abort k id) w)) m
  = stream (exec (notify tagName v) w) m.
Proof.
  intros Hne.
  destruct (on_abort_run k id w) as (Hc & _ & Hcb).
  destruct (notify_run tagName v (exec (on_abort k id) w)) as (_ & _ & _ & _ & H1 & _).
  destruct (notify_run tagName v w) as (_ & _ & _ & _ & H2 & _).
  cbv zeta in *. rewrite H1, H2. unfold stream, is_open. rewrite Hc, Hcb.
  destruct (existsb _ (activeConnections w)); [|done].
  by rewrite deliveries_unsubscribe_other.
Qed.

Lemma abort_leaves_other_listeners_witness :
  let w := run tags [OpAttach "c1"; OpAttach "c2"] online in
  stream (exec (notify "niveau" (JNum 7)) (exec (on_abort 0 "c1") w)) 1
  = stream (exec (notify "niveau" (JNum 7)) w) 1.
Proof.
  intros w. apply abort_leaves_other_listeners. discriminate.
Defined.

#[local] Instance preserved_detached_refl k q : Reflexive (preserved (detached k q)).
Proof. apply preserved_refl. Qed.

Lemma detached_keep (k : nat) (q : list Chunk) (w w' : World) :
  controllers w' = controllers w ->
  onUpdateCallbacks (this w') = onUpdateCallbacks (this w) ->
  preserved (detached k q) w w'.
Proof.
  intros H1 H2 (Hk & Hd & Hs). unfold detached, stream. by rewrite H1, H2.
Qed.

Lemma notify_keeps_detached k q tagName v :
  keeps (preserved (detached k q)) (notify tagName v).
Proof.
  intros w (Hk & Hd & Hs).
  destruct (notify_run tagName v w) as (_ & H2 & H3 & _ & H5 & _).
  cbv zeta in *. unfold exec in *. split; [by rewrite H3|]. split; [by rewrite H2|].
  rewrite H5, Hd. cbn. destruct (is_open w k); by rewrite app_nil_r.
Qed.

Lemma start_keeps_detached k q id : keeps (preserved (detached k q)) (start id).
Proof.
  intros w (Hk & Hd & Hs). rewrite start_run. cbn [snd].
  unfold detached, stream. cbn [controllers this].
  rewrite length_app. split; [lia|]. split.
  - destruct w as [[] ? ? ? ?]. cbn in *. unfold deliveries in *.
    rewrite List.filter_app, length_app, Hd. cbn.
    destruct (Nat.eqb_spec (length controllers0) k); [lia | done].
  - rewrite lookup_app_l by done. exact Hs.
Qed.

Lemma close_keeps_detached k q j : keeps (preserved (detached k q)) (close_controller j).
Proof.
  intros w (Hk & Hd & Hs). unfold close_controller.
  destruct (controllers w !! j) as [c|] eqn:Hc; [|done]. cbn [snd].
  unfold detached, stream, set_controllers. cbn [controllers this].
  rewrite length_insert. split; [done|]. split; [done|].
  destruct (decide (j = k)) as [->|Hne].
  - rewrite list_lookup_insert_eq by done. unfold stream in Hs. by rewrite Hc in Hs.
  - by rewrite list_lookup_insert_ne.
Qed.

Lemma unsubscribe_keeps_detached k q cb :
  keeps (preserved (detached k q)) (unsubscribe cb).
Proof.
  intros w (Hk & Hd & Hs). destruct w as [[] ? ? ? ?].
  split; [done|]. split; [|done]. cbn in *.
  pose proof (deliveries_filter_le k (fun c => c <> cb) onUpdateCallbacks0) as Hle.
  unfold deliveries in *. lia.
Qed.

(** A stream that no callback feeds stays as it is, whatever happens. *)
Lemma detached_forever (registry : Registry) k q (ops : list Op) (w : World) :
  detached k q w -> detached k q (run registry ops w).
Proof.
  apply (respects_run (preserved (detached k q)) registry);
    try (intros; apply detached_keep; by try destruct w0 as [[]]).
  - apply notify_keeps_detached.
  - apply start_keeps_detached.
  - apply close_keeps_detached.
  - intros conn w0. by apply detached_keep.
  - apply unsubscribe_keeps_detached.
Qed.

(** X11.  An abort detaches for good.  When the request of an attached
    listener aborts while its connection is still recorded, its callback
    is removed, and no later operation of any kind adds a chunk to its
    stream. *)
Theorem abort_detaches_for_good
    (registry : Registry) (k : nat) (c : Controller) (ops : list Op) (w : World) :
  controllers w !! k = Some c ->
  (forall cb, cb ∈ onUpdateCallbacks (this w) -> fst cb = k -> cb = (k, connectionId c)) ->
  (exists conn, conn ∈ activeConnections w /\ snd conn = connectionId c) ->
  let w1 := step registry (OpAbort k) w in
  deliveries k (onUpdateCallbacks (this w1)) = 0 /\
  stream (run registry ops w1) k = stream w k.
Proof.
  intros Hc Hown (conn & Hin & Hid). cbv zeta. cbn [step]. rewrite Hc.
  destruct (on_abort_run k (connectionId c) w) as (H1 & _ & H3).
  assert (Hex : existsb (fun conn => bool_decide (snd conn = connectionId c))
                        (activeConnections w) = true).
  { apply existsb_exists. exists conn. split; [by apply list_elem_of_In|].
    by apply bool_decide_eq_true_2. }
  rewrite Hex in H3.
  assert (Hd : detached k (stream w k) (exec (on_abort k (connectionId c)) w)).
  { split; [|split].
    - rewrite H1. by eapply lookup_lt_Some.
    - rewrite H3. by apply deliveries_unsubscribe_own.
    - unfold stream. by rewrite H1. }
  split; [apply Hd|].
  by destruct (detached_forever registry k _ ops _ Hd) as (_ & _ & Hs).
Qed.

Lemma abort_detaches_for_good_witness :
  let w := run tags [OpAttach "c1"; OpAttach "c2"] online in
  let ops := [OpChanged "niveau" (JNum 7); OpInterval 0 3;
              OpWriteTag "ARU" (JBool true) StatusGood; OpAttach "c3";
              OpChanged "ARU" (JBool false)] in
  let w1 := step tags (OpAbort 0) w in
  deliveries 0 (onUpdateCallbacks (this w1)) = 0 /\
  stream (run tags ops w1) 0 = stream w 0.
Proof.
  intros w ops.
  apply (abort_detaches_for_good tags 0 (mkController "c1"
           [Ping; InitialData (tagValues (this online))] true) ops w).
  - vm_compute. reflexivity.
  - intros cb Hin Hk. vm_compute in Hin.
    repeat (apply elem_of_cons in Hin as [->|Hin]; [done || discriminate|]).
    by apply not_elem_of_nil in Hin.
  - exists (0, "c1"). split; [vm_compute; left | reflexivity].
Defined.






(** ** From the wrapper to the page: the listener's store *)














(** A write is not published: after a write acknowledged good, the
    listener's store still shows the value from before. *)
Example write_is_not_mirrored :
  let w' := run tags [OpWriteTag "pompe" (JBool true) StatusGood]
                (exec (start "c1") online) in
  get w' "pompe" = Some (JBool true) /\
  replay (stream w' 0) WaterStore.initialState !! "pompe" = Some JNull.
Proof. vm_compute. split; reflexivity. Qed.

(** ** The socket route as a whole *)

Lemma no_delivery_connect registry url env : keeps no_delivery (connect registry url env).
Proof.
  apply (respects_connect no_delivery registry);
    intros; split; by try destruct w as [[]].
Qed.

Lemma no_delivery_readAllTags registry reads :
  keeps no_delivery (readAllTags registry reads).
Proof.
  apply (respects_readAllTags no_delivery registry);
    intros; split; by try destruct w as [[]].
Qed.

(** The route runs [start] on a world whose streams and callbacks are
    those it was called on. *)
Lemma GET_run registry (url id : string) (env : ConnectEnv)
    (reads : string -> ReadOutcome) (w : World) :
  exists w1, no_delivery w w1 /\ GET registry url id env reads w = start id w1.
Proof.
  unfold GET, isConnected, getConnectionUrl.
  rewrite bind_run. change (gets connected w) with (Return (connected (this w)), w).
  cbv iota beta.
  rewrite bind_run. change (gets currentUrl w) with (Return (currentUrl (this w)), w).
  cbv iota beta.
  rewrite bind_run.
  match goal with |- context [match ?pre w with _ => _ end] => set (m := pre) end.
  assert (Hk : keeps no_delivery m).
  { subst m. destruct (_ || _); [|apply keeps_ret; apply _].
    apply keeps_try_catch; [apply _ | |].
    - apply keeps_bind; [apply _ | apply no_delivery_connect |].
      intros [|].
      + apply keeps_bind; [apply _ | apply no_delivery_readAllTags |].
        intros _. apply keeps_ret. apply _.
      + intros w0. split; reflexivity.
    - intros e w0. split; reflexivity. }
  assert (Hr : returns m).
  { subst m. destruct (_ || _); [|apply returns_ret].
    apply returns_try_catch. intros e. apply returns_emit. }
  specialize (Hk w). destruct (Hr w) as [[] Ha].
  destruct (m w) as [r w1]. cbn in Ha, Hk. subst r.
  exists w1. by split.
Qed.

(** X14.  The socket route always answers with a stream.  Whether the
    wrapper was connected, the connect succeeded, failed or threw, and
    whatever the reads did, [GET] returns a new open stream that holds
    the keep-alive line and the snapshot as it stands after the connect
    attempt, registers one callback for it, and leaves the streams of
    the listeners before it as they were. *)
Theorem GET_always_streams registry (url id : string) (env : ConnectEnv)
    (reads : string -> ReadOutcome) (w : World) :
  let k := length (controllers w) in
  let w' := exec (GET registry url id env reads) w in
  result (GET registry url id env reads) w = Return k /\
  is_open w' k = true /\
  stream w' k = [Ping; InitialData (tagValues (this w'))] /\
  onUpdateCallbacks (this w') = onUpdateCallbacks (this w) ++ [(k, id)] /\
  forall j, j < k -> controllers w' !! j = controllers w !! j.
Proof.
  cbv zeta. unfold exec, result.
  destruct (GET_run registry url id env reads w) as (w1 & [Hc Hcb] & ->).
  rewrite start_run. cbn [fst snd]. unfold is_open, stream.
  cbn [controllers this]. rewrite Hc, Hcb.
  rewrite lookup_app_r by done. rewrite Nat.sub_diag. cbn [lookup list_lookup open queue].
  split; [done|]. split; [done|]. split; [by destruct (this w1)|].
  split; [by destruct (this w1)|].
  intros j Hj. destruct (this w1); cbn. by rewrite lookup_app_l.
Qed.

(** With the server down in production the listener is still given a
    stream, on a wrapper that is not connected. *)
Example GET_streams_while_offline :
  let w' := exec (GET tags endpoint "c1" (server_down "production") (fun _ => DataBad))
                 (boot tags) in
  connected (this w') = false /\
  stream w' 0 = [Ping; InitialData (tagValues (constructor tags))].
Proof. vm_compute. split; reflexivity. Qed.

(** ** The control route *)

(** What a write that answers true has done. *)
Lemma writeTag_true registry (tagName : string) (value : JsValue) (wr : WriteOutcome)
    (w : World) :
  result (writeTag registry tagName value wr) w = Return true ->
  exists info,
    lookup_tag registry tagName = Some info /\
    includes (access info) Write = true /\
    wr = StatusGood /\
    has_session w = true /\
    exec (writeTag registry tagName value wr) w
    = exec (store tagName value)
           (add_effect (session_write (nodeId info) (dataType_of (type info)) value wr) w).
Proof.
  destruct w as [[ses sub items c vals cbs url] ctrls conns ivs tr].
  unfold writeTag. js.
  destruct ses as [ses|], c; cbn; try discriminate.
  destruct (lookup_tag registry tagName) as [info|]; cbn; [|discriminate].
  destruct (includes (access info) Write) eqn:Hacc; cbn; [|discriminate].
  destruct wr as [| |e]; cbn; try discriminate.
  intros _. by exists info.
Qed.

(** What a write on a live session, to a writable tag, does. *)
Lemma writeTag_live_run registry (tagName : string) (value : JsValue) (info : TagInfo)
    (wr : WriteOutcome) (w : World) :
  has_session w = true ->
  lookup_tag registry tagName = Some info ->
  includes (access info) Write = true ->
  result (writeTag registry tagName value wr) w = Return (bool_decide (wr = StatusGood)) /\
  (wr = StatusGood ->
   exec (writeTag registry tagName value wr) w
   = exec (store tagName value)
          (add_effect (session_write (nodeId info) (dataType_of (type info)) value
                                     StatusGood) w)).
Proof.
  intros Hs Hreg Hacc.
  destruct w as [[ses sub items c vals cbs url] ctrls conns ivs tr].
  unfold writeTag. js.
  destruct ses as [ses|], c; try discriminate. cbn.
  rewrite Hreg. cbn. rewrite Hacc. cbn.
  destruct wr as [| |e]; cbn; split; try done.
Qed.

(** An answer of the route with status 200 that is not simulated. *)
Lemma write_and_answer_ok registry (body : Control.Body) (wr : WriteOutcome)
    (w w' : World) (response : Control.Response) :
  Control.write_and_answer registry body wr w = (Return response, w') ->
  Control.status response = 200 ->
  exists info,
    Control.payload response
    = Control.SuccessPayload (Control.tag body) (Control.value body) false /\
    lookup_tag registry (Control.to_key (Control.tag body)) = Some info /\
    includes (access info) Write = true /\
    wr = StatusGood /\
    has_session w' = true /\
    get w' (Control.to_key (Control.tag body)) = Some (Control.value body) /\
    last (effects w')
    = Some (session_write (nodeId info) (dataType_of (type info))
                          (Control.value body) StatusGood).
Proof.
  unfold Control.write_and_answer, isConnected.
  rewrite bind_run. change (gets connected w) with (Return (connected (this w)), w).
  cbv iota beta.
  destruct (connected (this w)); cbn [negb]; [|by intros [= <- <-]].
  rewrite bind_run.
  pose proof (writeTag_true registry (Control.to_key (Control.tag body))
                (Control.value body) wr w) as Htrue.
  unfold result, exec in Htrue.
  destruct (writeTag _ _ _ _ w) as [[[|]|e] w1]; cbn; intros [= <- <-]; try done.
  intros _. destruct (Htrue eq_refl) as (info & Hreg & Hacc & -> & Hs & Hw).
  cbn [snd] in Hw. subst w1.
  exists info. split; [done|]. split; [done|]. split; [done|]. split; [done|].
  destruct w as [[ses sub items c vals cbs url] ctrls conns ivs tr].
  unfold has_session, get in *. cbn in *.
  split; [done|]. split; [by rewrite lookup_insert_eq|]. by rewrite last_snoc.
Qed.

(** The route up to the write: either it has answered, or the write and
    its answer are all that is left. *)
Lemma POST_body_run registry (body : Control.Body) (rejson : Completion Control.Body)
    (env : ConnectEnv) (wr : WriteOutcome) (w w' : World) (response : Control.Response) :
  NODE_ENV env <> "development" ->
  Control.POST registry (Return body) rejson env wr w = (Return response, w') ->
  Control.status response = 200 ->
  js_not (Control.tag body) = false /\
  Control.value body <> JUndefined /\
  exists w0, Control.write_and_answer registry body wr w0 = (Return response, w').
Proof.
  intros Hprod Hrun H200.
  unfold Control.POST, try_catch in Hrun.
  match type of Hrun with
  | (match ?m w with _ => _ end) = _ => destruct (m w) as [[r|e] w1] eqn:Hbody
  end.
  2:{ exfalso. revert Hrun. rewrite bind_run. cbn [emit].
      rewrite bool_decide_eq_false_2 by done. intros [= <- <-]. by cbn in H200. }
  injection Hrun as -> ->.
  rewrite bind_run in Hbody. cbv iota beta in Hbody.
  destruct (js_not (Control.tag body)) eqn:Htag; cbn [orb] in Hbody;
    [injection Hbody as <- <-; by cbn in H200|].
  destruct (bool_decide (Control.value body = JUndefined)) eqn:Hval;
    [injection Hbody as <- <-; by cbn in H200|].
  apply bool_decide_eq_false in Hval.
  split; [done|]. split; [done|].
  unfold isConnected, getConnectionUrl in Hbody.
  rewrite bind_run in Hbody.
  change (gets connected w) with (Return (connected (this w)), w) in Hbody.
  cbv iota beta in Hbody.
  rewrite bind_run in Hbody.
  change (gets currentUrl w) with (Return (currentUrl (this w)), w) in Hbody.
  cbv iota beta in Hbody.
  destruct (Control.truthy_url (Control.url body)) as [u|]; [|by exists w].
  destruct (_ || _); [|by exists w].
  rewrite bind_run in Hbody.
  destruct (connect registry u env w) as [[[|]|e] w0]; cbn [negb] in Hbody.
  - by exists w0.
  - injection Hbody as <- <-. by cbn in H200.
  - discriminate.
Qed.

(** X15.  Outside development, status 200 from the control route means
    the write took place: the request carried a tag and a value, the tag
    is registered and writable, the server acknowledged the write as
    good, the wrapper holds a session, the snapshot holds the value
    under the tag, and the write is the last call the process made. *)
Theorem control_ok_means_written registry (json rejson : Completion Control.Body)
    (env : ConnectEnv) (wr : WriteOutcome) (w w' : World) (response : Control.Response) :
  NODE_ENV env <> "development" ->
  Control.POST registry json rejson env wr w = (Return response, w') ->
  Control.status response = 200 ->
  exists body info,
    json = Return body /\
    js_not (Control.tag body) = false /\
    Control.value body <> JUndefined /\
    Control.payload response
    = Control.SuccessPayload (Control.tag body) (Control.value body) false /\
    lookup_tag registry (Control.to_key (Control.tag body)) = Some info /\
    includes (access info) Write = true /\
    wr = StatusGood /\
    has_session w' = true /\
    get w' (Control.to_key (Control.tag body)) = Some (Control.value body) /\
    last (effects w')
    = Some (session_write (nodeId info) (dataType_of (type info))
                          (Control.value body) StatusGood).
Proof.
  intros Hprod Hrun H200.
  destruct json as [body|e].
  - destruct (POST_body_run _ _ _ _ _ _ _ _ Hprod Hrun H200) as (Htag & Hval & w0 & Hw0).
    destruct (write_and_answer_ok _ _ _ _ _ _ Hw0 H200) as (info & Hrest).
    by exists body, info.
  - exfalso. revert Hrun. unfold Control.POST, try_catch. rewrite bind_run.
    cbv iota beta. rewrite bind_run. cbn [emit].
    rewrite bool_decide_eq_false_2 by done. intros [= <- <-]. by cbn in H200.
Qed.

Lemma control_ok_means_written_witness :
  let body := Control.mkBody (JStr "pompe") (JBool true) (Some endpoint) in
  let env := server_up "production" in
  let out := Control.POST tags (Return body) (Throw TypeError) env StatusGood (boot tags) in
  get (snd out) "pompe" = Some (JBool true) /\
  last (effects (snd out))
  = Some (session_write "ns=4;s=pompe" DataType_Boolean (JBool true) StatusGood).
Proof.
  intros body env out.
  destruct (control_ok_means_written tags (Return body) (Throw TypeError) env StatusGood
              (boot tags) (snd out)
              (Control.mkResponse (Control.SuccessPayload (JStr "pompe") (JBool true) false)
                                  200))
    as (body' & info & [= <-] & _ & _ & _ & Hreg & _ & _ & _ & Hget & Hlast).
  - vm_compute. discriminate.
  - vm_compute. reflexivity.
  - reflexivity.
  - vm_compute in Hreg. injection Hreg as <-. split; [exact Hget | exact Hlast].
Defined.

(** In development the same route reports success for a tag that is not
    registered, when the body can be read a second time. *)
Example control_simulated_success :
  let body := Control.mkBody (JStr "nope") (JBool true) None in
  result (Control.POST tags (Return body) (Return body) (server_up "development") StatusBad)
         online
  = Return (Control.mkResponse (Control.SuccessPayload (JStr "nope") (JBool true) true) 200).
Proof. vm_compute. reflexivity. Qed.

(** The answers [write_and_answer] can give. *)
Lemma write_and_answer_status registry (body : Control.Body) (wr : WriteOutcome)
    (w w' : World) (response : Control.Response) :
  Control.write_and_answer registry body wr w = (Return response, w') ->
  Control.status response = 200 \/ Control.status response = 500.
Proof.
  unfold Control.write_and_answer, isConnected.
  rewrite bind_run. change (gets connected w) with (Return (connected (this w)), w).
  cbv iota beta.
  destruct (connected (this w)); cbn [negb]; [|intros [= <- <-]; by right].
  rewrite bind_run.
  destruct (writeTag _ _ _ _ w) as [[[|]|e] w1]; cbn; intros [= <- <-]; auto.
Qed.

(** X16.  Outside development the control route answers every request:
    whatever the body, the connect and the write do, the handler returns
    a response, with status 200, 400 or 500; and a request that is
    answered 400 has changed nothing and called nothing. *)
Theorem control_always_answers_in_production registry
    (json rejson : Completion Control.Body) (env : ConnectEnv) (wr : WriteOutcome)
    (w : World) :
  NODE_ENV env <> "development" ->
  exists response,
    result (Control.POST registry json rejson env wr) w = Return response /\
    (Control.status response = 200 \/ Control.status response = 400 \/
     Control.status response = 500) /\
    (Control.status response = 400 ->
     exec (Control.POST registry json rejson env wr) w = w /\
     Control.payload response = Control.ErrorPayload "Missing tag or value in request").
Proof.
  intros Hprod. unfold result, exec, Control.POST, try_catch.
  match goal with
  | |- context [match ?m w with _ => _ end] => destruct (m w) as [[r|e] w1] eqn:Hbody
  end.
  2:{ rewrite bind_run. cbn [emit]. rewrite bool_decide_eq_false_2 by done.
      eexists. split; [reflexivity|]. cbn. split; [auto | discriminate]. }
  exists r. cbn [fst snd]. split; [done|].
  rewrite bind_run in Hbody.
  destruct json as [body|e]; [|discriminate]. cbv iota beta in Hbody.
  assert (Hvalid : Control.status r = 400 /\ w1 = w /\
                   Control.payload r = Control.ErrorPayload "Missing tag or value in request"
                   \/ Control.status r = 200 \/ Control.status r = 500).
  { destruct (js_not (Control.tag body) || bool_decide (Control.value body = JUndefined)).
    { injection Hbody as <- <-. by left. }
    right.
    unfold isConnected, getConnectionUrl in Hbody.
    rewrite bind_run in Hbody.
    change (gets connected w) with (Return (connected (this w)), w) in Hbody.
    cbv iota beta in Hbody.
    rewrite bind_run in Hbody.
    change (gets currentUrl w) with (Return (currentUrl (this w)), w) in Hbody.
    cbv iota beta in Hbody.
    destruct (Control.truthy_url (Control.url body)) as [u|];
      [|by eapply write_and_answer_status].
    destruct (_ || _); [|by eapply write_and_answer_status].
    rewrite bind_run in Hbody.
    destruct (connect registry u env w) as [[[|]|e] w0]; cbn [negb] in Hbody.
    - by eapply write_and_answer_status.
    - injection Hbody as <- <-. by right.
    - discriminate. }
  destruct Hvalid as [(H4 & -> & Hp) | [H2 | H5]].
  - split; auto.
  - split; [auto|]. rewrite H2. discriminate.
  - split; [auto|]. rewrite H5. discriminate.
Qed.

Lemma control_always_answers_in_production_witness :
  exists response,
    result (Control.POST tags (Return (Control.mkBody (JStr "nope") (JBool true) None))
                         (Throw TypeError) (server_up "production") StatusGood) online
    = Return response /\
    (Control.status response = 200 \/ Control.status response = 400 \/
     Control.status response = 500).
Proof.
  destruct (control_always_answers_in_production tags
              (Return (Control.mkBody (JStr "nope") (JBool true) None))
              (Throw TypeError) (server_up "production") StatusGood online)
    as (response & Hr & Hs & _).
  - vm_compute. discriminate.
  - by exists response.
Defined.

(** A tag that is not registered is answered 500 in production. *)
Example control_unregistered_tag :
  result (Control.POST tags (Return (Control.mkBody (JStr "nope") (JBool true) None))
                       (Throw TypeError) (server_up "production") StatusGood) online
  = Return (Control.mkResponse (Control.ErrorPayload "Internal server error") 500).
Proof. vm_compute. reflexivity. Qed.

(** ** From the panel to the server *)

(** The route on a live session that is connected to the endpoint the
    request names, for a registered writable tag. *)
Lemma POST_live_run registry (body : Control.Body) (rejson : Completion Control.Body)
    (env : ConnectEnv) (wr : WriteOutcome) (info : TagInfo) (w : World) :
  has_session w = true ->
  Control.url body = Some (currentUrl (this w)) ->
  js_not (Control.tag body) = false ->
  Control.value body <> JUndefined ->
  lookup_tag registry (Control.to_key (Control.tag body)) = Some info ->
  includes (access info) Write = true ->
  let write := writeTag registry (Control.to_key (Control.tag body)) (Control.value body) wr in
  exec (Control.POST registry (Return body) rejson env wr) w = exec write w /\
  exists response,
    result (Control.POST registry (Return body) rejson env wr) w = Return response /\
    Control.status response = if bool_decide (wr = StatusGood) then 200 else 500.
Proof.
  intros Hs Hurl Htag Hval Hreg Hacc. cbv zeta.
  destruct (writeTag_live_run registry _ (Control.value body) info wr w Hs Hreg Hacc)
    as [Hres _].
  unfold exec, result in *. unfold Control.POST, try_catch.
  rewrite bind_run. cbv iota beta. rewrite Htag, bool_decide_eq_false_2 by done.
  cbn [orb]. unfold isConnected, getConnectionUrl.
  rewrite bind_run. change (gets connected w) with (Return (connected (this w)), w).
  cbv iota beta.
  rewrite bind_run. change (gets currentUrl w) with (Return (currentUrl (this w)), w).
  cbv iota beta.
  assert (Hc : connected (this w) = true).
  { unfold has_session in Hs. by apply andb_true_iff in Hs as [_ ?]. }
  assert (Hwa : Control.write_and_answer registry body wr w
                = (Return
                     (if bool_decide (wr = StatusGood)
                      then Control.mkResponse
                             (Control.SuccessPayload (Control.tag body) (Control.value body)
                                                     false) 200
                      else Control.mkResponse
                             (Control.ErrorPayload
                                ("Failed to write value to tag "
                                 +:+ Control.to_key (Control.tag body))) 500),
                   snd (writeTag registry (Control.to_key (Control.tag body))
                                 (Control.value body) wr w))).
  { unfold Control.write_and_answer, isConnected. rewrite bind_run.
    change (gets connected w) with (Return (connected (this w)), w).
    cbv iota beta. rewrite Hc. cbn [negb]. rewrite bind_run.
    destruct (writeTag _ _ _ _ w) as [r w1]. cbn in Hres. subst r.
    by destruct (bool_decide (wr = StatusGood)). }
  assert (Hrun : (match Control.truthy_url (Control.url body) with
                  | Some u =>
                      if negb (connected (this w))
                         || negb (bool_decide (currentUrl (this w) = u))
                      then
                        ok ← connect registry u env;
                        if negb ok
                        then ret (Control.mkResponse
                                    (Control.ErrorPayload
                                       ("Failed to connect to OPC-UA server at " +:+ u)) 500)
                        else Control.write_and_answer registry body wr
                      else Control.write_and_answer registry body wr
                  | None => Control.write_and_answer registry body wr
                  end)%js w
                 = Control.write_and_answer registry body wr w).
  { rewrite Hurl. unfold Control.truthy_url.
    destruct (decide (currentUrl (this w) = EmptyString)); [done|].
    by rewrite Hc, bool_decide_eq_true_2. }
  rewrite Hrun, Hwa. cbn [snd fst]. split; [done|].
  eexists. split; [done|]. by destruct (bool_decide (wr = StatusGood)).
Qed.

(** Every control of the panel names a registered tag that is writable. *)
Lemma panel_tags_writable (tagValues : gmap string JsValue) (c : PanelControl) :
  exists info,
    lookup_tag tags (fst (panel_command tagValues c)) = Some info /\
    includes (access info) Write = true.
Proof. destruct c; eexists; split; reflexivity. Qed.

(** X17.  Every control of the panel reaches the server.  On a wrapper
    that holds a session to the endpoint of the page, the command of any
    control, handed to [handleControlChange], is written by the control
    route: the handler answers true exactly when the server acknowledges
    the write as good, the snapshot then holds the commanded value under
    the commanded tag, and otherwise the snapshot is as it was and the
    page is told of the failure. *)
Theorem panel_commands_are_written
    (tagValues0 : gmap string JsValue) (c : PanelControl)
    (rejson : Completion Control.Body) (env : ConnectEnv) (wr : WriteOutcome) (w : World) :
  has_session w = true ->
  let cmd := panel_command tagValues0 c in
  let out := handleControlChange tags (currentUrl (this w)) cmd rejson env wr w in
  fst (fst out) = bool_decide (wr = StatusGood) /\
  (wr = StatusGood ->
   snd (fst out) = None /\
   tagValues (this (snd out)) = <[fst cmd := JBool (snd cmd)]> (tagValues (this w))) /\
  (wr <> StatusGood ->
   snd (fst out) = Some ("Failed to update " +:+ fst cmd +:+ ". Please try again.") /\
   tagValues (this (snd out)) = tagValues (this w)).
Proof.
  intros Hs. cbv zeta.
  destruct (panel_tags_writable tagValues0 c) as (info & Hreg & Hacc).
  set (cmd := panel_command tagValues0 c) in *.
  set (body := Control.mkBody (JStr (fst cmd)) (JBool (snd cmd)) (Some (currentUrl (this w)))).
  assert (Htag : js_not (Control.tag body) = false).
  { subst body cmd. by destruct c. }
  destruct (POST_live_run tags body rejson env wr info w Hs eq_refl Htag
              ltac:(discriminate) Hreg Hacc) as (Hw & response & Hr & Hst).
  destruct (writeTag_live_run tags (fst cmd) (JBool (snd cmd)) info wr w Hs Hreg Hacc)
    as [_ Hgood].
  unfold handleControlChange. fold body. unfold exec, result in Hw, Hr.
  destruct (Control.POST tags (Return body) rejson env wr w) as [r w'].
  cbn [fst snd] in Hw, Hr. subst r w'. rewrite Hst.
  destruct (bool_decide (wr = StatusGood)) eqn:Hwr; cbn [fst snd].
  - apply bool_decide_eq_true in Hwr. split; [done|]. split; [|done].
    intros _. split; [done|]. change (Control.to_key (Control.tag body)) with (fst cmd).
    change (Control.value body) with (JBool (snd cmd)).
    unfold exec in Hgood. rewrite (Hgood Hwr). by destruct w as [[]].
  - apply bool_decide_eq_false in Hwr. split; [done|]. split; [done|].
    intros _. split; [done|].
    change (Control.to_key (Control.tag body)) with (fst cmd).
    change (Control.value body) with (JBool (snd cmd)).
    clear - Hs Hreg Hacc Hwr.
    destruct w as [[ses sub items cn vals cbs url] ctrls conns ivs tr].
    unfold has_session in Hs. cbn in Hs.
    destruct ses as [ses|], cn; try discriminate.
    unfold writeTag. js. rewrite Hreg. cbn. rewrite Hacc. cbn.
    by destruct wr.
Qed.

Lemma panel_commands_are_written_witness :
  let out := handleControlChange tags endpoint (panel_command ∅ PumpButton)
               (Throw TypeError) (server_up "production") StatusGood online in
  fst (fst out) = true /\ get (snd out) "pompe" = Some (JBool true).
Proof.
  intros out.
  destruct (panel_commands_are_written ∅ PumpButton (Throw TypeError)
              (server_up "production") StatusGood online) as (H1 & H2 & _).
  - vm_compute. reflexivity.
  - split; [exact H1|]. destruct (H2 eq_refl) as [_ Hv].
    unfold get, out. change endpoint with (currentUrl (this online)).
    rewrite Hv. apply lookup_insert_eq.
Defined.

(** The toggle reads the page's store, and a write is not published: a
    page that hears of no change sends the same command again. *)
Example pump_toggle_without_notification :
  let store0 := replay (stream (exec (start "c1") online) 0) WaterStore.initialState in
  let w1 := exec (start "c1") online in
  let out := handleControlChange tags endpoint (panel_command store0 PumpButton)
               (Throw TypeError) (server_up "production") StatusGood w1 in
  let store1 := replay (stream (snd out) 0) WaterStore.initialState in
  fst (fst out) = true /\
  get (snd out) "pompe" = Some (JBool true) /\
  panel_command store1 PumpButton = ("pompe", true).
Proof. vm_compute. repeat split. Qed.

(** ** The page under any sequence of events *)

Lemma steady_connecting : steady Page.connecting.
Proof.
  split; [|split; [done | by left]].
  repeat constructor.
Qed.

Lemma Forall_insert_closure (P : Page.Closure -> Prop) (l : list Page.Closure)
    (i : nat) (c : Page.Closure) :
  Forall P l -> P c -> Forall P (<[i := c]> l).
Proof. intros. by apply Forall_insert. Qed.

Lemma dispatch_steady (e : Page.Event) (s : Page.State) :
  steady s ->
  steady (Page.dispatch e s) /\
  (Page.isConnected s = true -> Page.isConnected (Page.dispatch e s) = true).
Proof.
  intros (Hc & Hs & He). destruct s as [a b err sc cs ts]. cbn in Hc, Hs, He.
  destruct e as [i|i|]; cbn [Page.dispatch Page.closures Page.timeouts].
  - destruct (cs !! i) as [c|] eqn:Hi; [|by repeat split].
    destruct (Page.closed c) eqn:Hcl; [by repeat split|].
    unfold Page.onopen. cbn [Page.closures]. rewrite Hi.
    split; [|done]. split; [|split; [done | by left]].
    cbn. apply Forall_insert_closure; [done | done].
  - destruct (cs !! i) as [c|] eqn:Hi; [|by repeat split].
    destruct (Page.closed c) eqn:Hcl; [by repeat split|].
    pose proof (proj1 (Forall_lookup _ _) Hc i c Hi Hcl) as Hrc.
    unfold Page.onerror. cbn [Page.closures]. rewrite Hi, Hrc.
    change (Nat.ltb 0 Page.maxRetries) with true. cbv iota.
    cbn [Page.set_closure Page.closures Page.isConnecting Page.isConnected
         Page.error Page.store_connected Page.timeouts].
    split; [|done]. split; [|split; [done | by right]].
    apply Forall_insert_closure; [|done].
    apply Forall_insert_closure; [done | done].
  - destruct ts as [|t ts]; [by repeat split|].
    split; [|done]. split; [|split; done].
    cbn. apply Forall_app. split; [done|]. by repeat constructor.
Qed.

Lemma deliver_steady (events : list Page.Event) (s : Page.State) :
  steady s ->
  steady (deliver events s) /\
  (Page.isConnected s = true -> Page.isConnected (deliver events s) = true).
Proof.
  revert s. induction events as [|e events IH]; intros s Hs; [done|].
  destruct (dispatch_steady e s Hs) as [Hs' Hc].
  destruct (IH _ Hs') as [Hs'' Hc']. split; [done|]. cbn. auto.
Qed.

(** X18.  The page never gives up.  Whatever the browser delivers after
    [handleConnect] opened the channel (opens, errors, elapsed timers,
    in any order and number), the terminal branch of [onerror] is never
    taken: the only message the page ever shows is attempt 1 of 5, and
    the connection flag of the store follows the one of the page. *)
Theorem page_never_gives_up (events : list Page.Event) :
  let s := deliver events Page.connecting in
  Page.gave_up s = false /\
  (Page.error s = None \/ Page.error s = Some "Connection lost. Retrying (1/5)...") /\
  Page.store_connected s = Page.isConnected s.
Proof.
  cbv zeta.
  destruct (deliver_steady events _ steady_connecting) as [(_ & Hs & He) _].
  split; [|by split]. unfold Page.gave_up.
  apply bool_decide_eq_false. by destruct He as [-> | ->].
Qed.

(** X19.  Once the channel has opened, the page shows connected for
    good: no later error, on that channel or on any retry, brings the
    connection flags of the page and of the store back to false. *)
Theorem page_stays_connected (events more : list Page.Event) :
  Page.isConnected (deliver events Page.connecting) = true ->
  let s := deliver (events ++ more) Page.connecting in
  Page.isConnected s = true /\ Page.store_connected s = true.
Proof.
  intros Hc. cbv zeta. unfold deliver in *. rewrite foldl_app.
  fold (deliver events Page.connecting) in *.
  destruct (deliver_steady events _ steady_connecting) as [Hs _].
  fold (deliver more (deliver events Page.connecting)).
  destruct (deliver_steady more _ Hs) as [(_ & Hsc & _) Hk].
  rewrite Hsc. split; by apply Hk.
Qed.

Lemma page_stays_connected_witness :
  let s := deliver ([Page.Open 0]
                    ++ [Page.Failure 0; Page.Elapse; Page.Failure 1; Page.Elapse;
                        Page.Failure 2])
                   Page.connecting in
  Page.isConnected s = true /\ Page.store_connected s = true.
Proof. apply page_stays_connected. vm_compute. reflexivity. Defined.
